(** * MISTrg: the fold orchestration loop of [runtime/run.py]

    A shallow embedding of [RunTime.train] and
    [RunTime.predict_and_evaluate_val].  Python objects that the code
    mutates (the argument namespace [self.args], the results table, the
    metrics aggregator, the files on disk) live in one [world] record that
    is threaded through a state-and-exception monad.  Every call to a
    collaborator is also recorded in a trace, so that statements about
    "how many times" and "in which order" can be read off a run.

    Losses are [float32] values in the source; they are idealised here as
    rationals, with [+inf] added where the source uses [np.Inf]: a loss
    is a finite number, never NaN, and a mean is exact where [float32]
    rounds. *)

From Stdlib Require Import QArith Lia Ascii.
From stdpp Require Import base option list strings gmap pretty.

(** ** Python exceptions and outcomes *)

Inductive exn :=
| NameError
| FileNotFoundError
| InvalidArgumentError
| ZeroDivisionError
| IndexError
| TypeError
| OSError.

(** [OutOfFuel] is not a Python outcome: it marks a run of the model that
    was given too few iterations for the [for] loop over the training
    iterator, which the source allows to be infinite. *)
Inductive outcome (A : Type) :=
| Ok (a : A)
| Raise (e : exn)
| OutOfFuel.
Arguments Ok {A} a.
Arguments Raise {A} e.
Arguments OutOfFuel {A}.

(** ** [tf.keras.metrics.Mean] *)

Module Mean.
Record t := mk { total : Q; count : nat }.

Definition empty : t := mk 0 0.

(** [metric(x)] : add one sample. *)
Definition update_state (x : Q) (m : t) : t :=
  mk (total m + x) (S (count m)).

(** [metric.result()]: [divide_no_nan total count]. *)
Definition result (m : t) : Q :=
  match count m with
  | O => 0
  | S _ => total m / inject_Z (Z.of_nat (count m))
  end.

Definition reset_states (m : t) : t := empty.

End Mean.

(** ** Extended losses: [np.Inf] and finite values *)

Inductive xloss :=
| Finite (q : Q)
| Infinity.

Definition Qltb (x y : Q) : bool := negb (Qle_bool y x).

(** [val_loss < self.best_val_loss] *)
Definition loss_lt (x : Q) (best : xloss) : bool :=
  match best with
  | Infinity => true
  | Finite b => Qltb x b
  end.

(** ** [os.path.join] (posixpath) *)

Definition starts_with_sep (s : string) : bool :=
  match s with
  | String "/"%char _ => true
  | _ => false
  end.

Fixpoint ends_with_sep (s : string) : bool :=
  match s with
  | EmptyString => false
  | String c EmptyString => Ascii.eqb c "/"%char
  | String _ s' => ends_with_sep s'
  end.

Definition path_join2 (path b : string) : string :=
  if starts_with_sep b then b
  else if (if String.eqb path "" then true else ends_with_sep path) then path +:+ b
  else path +:+ "/" +:+ b.

Definition path_join (a : string) (ps : list string) : string :=
  fold_left path_join2 ps a.

(** ** Datasets and iterators

    A [tf.data] dataset or DALI iterator is the stream of items it yields:
    [ds i] is the [i]-th item, [None] once it is exhausted.  A cycling
    iterator never returns [None]. *)

Definition dataset (A : Type) := nat -> option A.

Fixpoint ds_take_from {A} (ds : dataset A) (start n : nat) : list A :=
  match n with
  | O => []
  | S n' =>
      match ds start with
      | None => []
      | Some x => x :: ds_take_from ds (S start) n'
      end
  end.

(** [ds.take(n)], iterated to its end. *)
Definition ds_take {A} (n : nat) (ds : dataset A) : list A := ds_take_from ds 0 n.

Definition ds_of_list {A} (l : list A) : dataset A := fun i => l !! i.

(** An iterator that cycles through [l] for ever. *)
Definition ds_cycle {A} (l : list A) : dataset A := fun i => l !! (i mod length l).

(** ** Command-line arguments and the data manifest *)

Record Args := {
  arg_results : string;
  arg_folds : list nat;
  arg_patch_size : option (list nat);
  arg_depth : option nat;
  arg_steps_per_epoch : option nat;
  arg_batch_size : nat;
  arg_epochs : nat;
  arg_optimizer : string;
}.

Definition set_steps_per_epoch (v : option nat) (a : Args) : Args :=
  {| arg_results := arg_results a;
     arg_folds := arg_folds a;
     arg_patch_size := arg_patch_size a;
     arg_depth := arg_depth a;
     arg_steps_per_epoch := v;
     arg_batch_size := arg_batch_size a;
     arg_epochs := arg_epochs a;
     arg_optimizer := arg_optimizer a |}.

Record Data := {
  data_task : string;
  data_images : list string;
  data_labels : list nat;
}.

(** One row of the paths table: [id], [mask], then one path per image.
    The rows of a frame share the frame's columns, so within one frame
    every row holds the same number of image paths; a cell is taken to
    hold a path (pandas fills a missing cell with NaN, which is not
    modelled). *)
Record patient := {
  pat_id : string;
  pat_mask : string;
  pat_images : list string;
}.

(** A tensor is its shape and its values. *)
Record tensor (D : Type) := Tensor { shape : list nat; data : D }.
Arguments Tensor {D} shape data.
Arguments shape {D} t.
Arguments data {D} t.

(** ** Collaborators outside [run.py]

    The network, the optimizer, the loss, the inference engine and the
    per-case evaluator are black boxes for the orchestration code; they are
    the fields of this interface. *)

Class Collaborators := {
  model : Type;
  optimizer : Type;
  tdata : Type;
  volume : Type;
  row : Type;
  (** [get_model(args.model, input_shape, n_channels, n_classes, ..., depth, ...)] *)
  get_model : Args -> list nat -> nat -> nat -> nat -> model;
  (** [get_optimizer(args)] *)
  get_optimizer : Args -> optimizer;
  (** [optimizer.learning_rate.numpy()] *)
  optimizer_learning_rate : optimizer -> Q;
  (** depth derived from the patch size when [args.depth] is [None] *)
  default_depth : list nat -> nat;
  (** the body of [train_step] up to the accumulator update: forward pass,
      loss, gradients, [apply_gradients]; yields the unscaled loss *)
  gradient_step : Args -> model -> optimizer -> tensor tdata -> tensor tdata ->
                  model * optimizer * Q;
  (** [dice_loss(mask, sliding_window_inference(image, ..., model))] *)
  sliding_window_dice : Args -> list nat -> nat -> model -> tensor tdata -> tensor tdata -> Q;
  (** pixel values of [tf.image.rgb_to_grayscale] *)
  gray_data : tdata -> tdata;
  (** [ants.image_read] *)
  image_read : string -> volume;
  (** [predict_single_example] *)
  predict_single_example : model -> tensor tdata -> volume -> volume;
  (** the metrics row computed by [evaluate_prediction] *)
  evaluate_row : volume -> volume -> string -> row;
}.

Section RunTime.
Context `{Collaborators}.

(** [self.data], read once in [__init__] and never written. *)
Variable data_manifest : Data.

Definition batch : Type := tensor tdata * tensor tdata.

(** What the calls on lines 177-201 and 337-353 produce for one fold:
    the training and validation file lists after [train_test_split], the
    three loaders and the test data frame.  [KFold], [train_test_split],
    [get_data_loader] and [get_test_df] are library or absent code. *)
Record fold_data := {
  fd_train_images : list string;
  fd_val_images : list string;
  fd_train_loader : dataset batch;
  fd_val_loader : dataset batch;
  fd_test_df : list patient;
  fd_test_loader : dataset batch;
}.

(** [train_splits] / [test_splits], indexed by fold. *)
Variable splits : list fold_data.

Inductive file :=
| SavedModel (m : model)
| Nifti.

(** Calls that leave [run.py], in the order they are made. *)
Inductive event :=
| EvFoldStart (fold : nat)
| EvTrainStep (global_step : nat) (image mask : tensor tdata)
| EvValStep (image mask : tensor tdata)
| EvCheckpointUpdate (m : model) (current_val_loss : Q)
| EvSave (path : string) (m : model)
| EvLogsUpdate (epoch : nat)
| EvOnEpochEnd (val_loss : Q) (learning_rate : Q)
| EvPredict (id : string)
| EvOnKFoldEnd
| EvOnTrainingEnd.

Record world := World {
  w_args : Args;                    (* self.args *)
  w_results_df : list row;          (* self.results_df *)
  w_k_metrics : list (Q * Q);       (* the per-fold log of self.k_metrics *)
  w_fs : gmap string file;          (* files on disk *)
  w_trace : list event;             (* oldest first *)
  w_learning_rate : option Q;       (* local [learning_rate] of train() *)
}.

Definition M (A : Type) : Type := world -> outcome A * world.

Definition ret {A} (a : A) : M A := fun w => (Ok a, w).
Definition raise {A} (e : exn) : M A := fun w => (Raise e, w).
Definition out_of_fuel {A} : M A := fun w => (OutOfFuel, w).
Definition bind {A B} (m : M A) (k : A -> M B) : M B :=
  fun w =>
    match m w with
    | (Ok a, w') => k a w'
    | (Raise e, w') => (Raise e, w')
    | (OutOfFuel, w') => (OutOfFuel, w')
    end.

Notation "'let!' x ':=' m 'in' k" := (bind m (fun x => k))
  (at level 10, x name, m at level 200, k at level 200, only parsing).

Definition get_args : M Args := fun w => (Ok (w_args w), w).
Definition put_args (a : Args) : M unit := fun w =>
  (Ok tt, World a (w_results_df w) (w_k_metrics w) (w_fs w) (w_trace w) (w_learning_rate w)).
Definition append_result (r : row) : M unit := fun w =>
  (Ok tt, World (w_args w) (w_results_df w ++ [r]) (w_k_metrics w) (w_fs w) (w_trace w)
            (w_learning_rate w)).
Definition put_k_metrics (k : list (Q * Q)) : M unit := fun w =>
  (Ok tt, World (w_args w) (w_results_df w) k (w_fs w) (w_trace w) (w_learning_rate w)).
Definition get_k_metrics : M (list (Q * Q)) := fun w => (Ok (w_k_metrics w), w).
Definition get_fs : M (gmap string file) := fun w => (Ok (w_fs w), w).
Definition put_fs (f : gmap string file) : M unit := fun w =>
  (Ok tt, World (w_args w) (w_results_df w) (w_k_metrics w) f (w_trace w) (w_learning_rate w)).
Definition emit (e : event) : M unit := fun w =>
  (Ok tt, World (w_args w) (w_results_df w) (w_k_metrics w) (w_fs w) (w_trace w ++ [e])
            (w_learning_rate w)).
Definition put_learning_rate (v : option Q) : M unit := fun w =>
  (Ok tt, World (w_args w) (w_results_df w) (w_k_metrics w) (w_fs w) (w_trace w) v).
(** Reading a local that was never assigned raises [UnboundLocalError],
    a subclass of [NameError]. *)
Definition read_learning_rate : M Q := fun w =>
  match w_learning_rate w with
  | Some v => (Ok v, w)
  | None => (Raise NameError, w)
  end.

(** A Python [for x in xs: s = body(x, s)]. *)
Fixpoint for_each {A S} (body : A -> S -> M S) (xs : list A) (s : S) : M S :=
  match xs with
  | [] => ret s
  | x :: xs' => let! s' := body x s in for_each body xs' s'
  end.

(** *** File operations *)

(** [model.save(path)] *)
Definition save_model (path : string) (m : model) : M unit :=
  let! _ := emit (EvSave path m) in
  let! fs := get_fs in
  put_fs (<[path := SavedModel m]> fs).

(** [load_model(path, compile=False)] *)
Definition load_model (path : string) : M model :=
  let! fs := get_fs in
  match fs !! path with
  | Some (SavedModel m) => ret m
  | _ => raise OSError
  end.

(** [ants.image_write(image, path)] *)
Definition image_write (path : string) : M unit :=
  let! fs := get_fs in
  put_fs (<[path := Nifti]> fs).

(** [os.remove(path)] *)
Definition os_remove (path : string) : M unit :=
  let! fs := get_fs in
  match fs !! path with
  | Some _ => put_fs (delete path fs)
  | None => raise FileNotFoundError
  end.

(** [tf.image.rgb_to_grayscale]: the last dimension must be 3 and
    becomes 1.  The conversion contracts the last axis with the three luma
    weights ([tensordot]): a tensor without any axis fails when its last
    axis is looked up ([IndexError]), one whose last axis is not of size 3
    fails in the product ([InvalidArgumentError]). *)
Definition rgb_to_grayscale (t : tensor tdata) : M (tensor tdata) :=
  match last (shape t) with
  | Some 3 => ret (Tensor (removelast (shape t) ++ [1]) (gray_data (data t)))
  | Some _ => raise InvalidArgumentError
  | None => raise IndexError
  end.

(** [a % b] on non-negative integers. *)
Definition py_mod (a b : nat) : M nat :=
  match b with
  | O => raise ZeroDivisionError
  | S _ => ret (a mod b)
  end.

(** [a // b] on non-negative integers. *)
Definition py_floordiv (a b : nat) : M nat :=
  match b with
  | O => raise ZeroDivisionError
  | S _ => ret (a / b)
  end.

(** *** The checkpoint tracker *)

Record Checkpoints := {
  best_model_path : string;
  last_model_path : string;
  best_val_loss : xloss;
}.

(** Modelled from the spec: [Checkpoints.update] of runtime/checkpoints.py,
    which is not under src/.  It always persists a snapshot at the last
    path, and persists the same snapshot at the best path and records the
    loss when the loss is strictly below the best one seen. *)
Definition Checkpoints_update (ck : Checkpoints) (m : model) (val_loss : Q) : M Checkpoints :=
  let! _ := save_model (last_model_path ck) m in
  if loss_lt val_loss (best_val_loss ck) then
    let! _ := save_model (best_model_path ck) m in
    ret {| best_model_path := best_model_path ck;
           last_model_path := last_model_path ck;
           best_val_loss := Finite val_loss |}
  else ret ck.

(** Modelled from the spec: [Checkpoints.save_last_model(model, path)] of
    runtime/checkpoints.py, which is not under src/.  The spec gives the
    tracker a "last" slot holding the most recent model; the caller hands
    the model and the target path, and the model is persisted there. *)
Definition Checkpoints_save_last_model (ck : Checkpoints) (m : model) (path : string) : M unit :=
  save_model path m.

(** *** Per-fold state

    [train_loss] and [val_loss] are single objects: the progress bar and
    the logger are constructed with references to them (lines 277-280), so
    there is one copy of each here. *)

Record fold_locals := Locals {
  l_model : model;
  l_optimizer : optimizer;
  l_train_loss : Mean.t;
  l_val_loss : Mean.t;
  l_checkpoint : Checkpoints;
  l_current_epoch : nat;
  l_local_step : nat;
}.

Definition n_channels : nat := length (data_images data_manifest).
Definition n_classes : nat := length (data_labels data_manifest).

(** [train_step(image, mask)], lines 232-247. *)
Definition train_step (global_step : nat) (image mask : tensor tdata) (l : fold_locals)
  : M fold_locals :=
  let! _ := emit (EvTrainStep global_step image mask) in
  let! a := get_args in
  let '(m, o, unscaled_loss) := gradient_step a (l_model l) (l_optimizer l) image mask in
  ret (Locals m o (Mean.update_state unscaled_loss (l_train_loss l)) (l_val_loss l)
         (l_checkpoint l) (l_current_epoch l) (l_local_step l)).

(** [val_step(image, mask)], lines 251-264. *)
Definition val_step (patch_size : list nat) (b : batch) (l : fold_locals) : M fold_locals :=
  let! _ := emit (EvValStep (fst b) (snd b)) in
  let! a := get_args in
  let loss := sliding_window_dice a patch_size n_classes (l_model l) (fst b) (snd b) in
  ret (Locals (l_model l) (l_optimizer l) (l_train_loss l)
         (Mean.update_state loss (l_val_loss l))
         (l_checkpoint l) (l_current_epoch l) (l_local_step l)).

(** Modelled from the spec: [ProgressBar.reset] of runtime/progress_bar.py,
    which is not under src/.  The progress bar is constructed with the two
    running-loss accumulators (line 277), and [run.py] itself never calls
    [reset_states] on them.  The spec has both accumulators reset once per
    validation round; this call is the one made once per round (line 317,
    after [checkpoint.update] and [logs.update]), and it is taken to reset
    both. *)
Definition ProgressBar_reset (l : fold_locals) : fold_locals :=
  Locals (l_model l) (l_optimizer l)
    (Mean.reset_states (l_train_loss l)) (Mean.reset_states (l_val_loss l))
    (l_checkpoint l) (l_current_epoch l) (l_local_step l).

(** The validation block, lines 304-320. *)
Definition validation_round (patch_size : list nat) (fd : fold_data) (l : fold_locals)
  : M fold_locals :=
  let! l := for_each (val_step patch_size)
              (ds_take (length (fd_val_images fd)) (fd_val_loader fd)) l in
  let current_val_loss := Mean.result (l_val_loss l) in
  let! _ := emit (EvCheckpointUpdate (l_model l) current_val_loss) in
  let! ck := Checkpoints_update (l_checkpoint l) (l_model l) current_val_loss in
  let! _ := emit (EvLogsUpdate (l_current_epoch l)) in
  let l := ProgressBar_reset l in
  ret (Locals (l_model l) (l_optimizer l) (l_train_loss l) (l_val_loss l) ck
         (S (l_current_epoch l)) 1).

(** One pass through the body of the training loop, lines 285-320, for
    the item numbered [global_step] by [enumerate].  The result is [None]
    when the loop ends here (the iterator is exhausted, or [break]) and the
    updated state when it goes on. *)
Definition train_iteration (patch_size : list nat) (fd : fold_data) (total_steps : nat)
    (global_step : nat) (l : fold_locals) : M (option fold_locals) :=
  match fd_train_loader fd global_step with
  | None => ret None
  | Some (image, mask) =>
      let! image := rgb_to_grayscale image in
      let! mask := rgb_to_grayscale mask in
      if total_steps <=? global_step then ret None
      else
        let! l := train_step global_step image mask l in
        let l := Locals (l_model l) (l_optimizer l) (l_train_loss l) (l_val_loss l)
                   (l_checkpoint l) (l_current_epoch l) (S (l_local_step l)) in
        let! a := get_args in
        let! steps_per_epoch :=
          match arg_steps_per_epoch a with
          | Some s => ret s
          | None => raise TypeError
          end in
        let! r := py_mod (global_step + 1) steps_per_epoch in
        let! l := (if (r =? 0) && (0 <? global_step)
                   then validation_round patch_size fd l
                   else ret l) in
        ret (Some l)
  end.

(** The [for] loop itself; [fuel] bounds the number of items pulled from
    the iterator. *)
Fixpoint train_loop (fuel : nat) (patch_size : list nat) (fd : fold_data) (total_steps : nat)
    (global_step : nat) (l : fold_locals) : M fold_locals :=
  match fuel with
  | O => out_of_fuel
  | S fuel' =>
      let! next := train_iteration patch_size fd total_steps global_step l in
      match next with
      | None => ret l
      | Some l' => train_loop fuel' patch_size fd total_steps (S global_step) l'
      end
  end.

(** *** End-of-fold evaluation *)

(** [evaluate_prediction] is in runtime/utils.py, not under src/.  It is
    handed the two temporary file names; it is taken to write both files
    (they are the files its caller deletes afterwards) and to return the
    metrics row. *)
Definition evaluate_prediction (prediction original_mask : volume) (id : string)
    (pred_temp_filename mask_temp_filename : string) : M row :=
  let! _ := image_write pred_temp_filename in
  let! _ := image_write mask_temp_filename in
  ret (evaluate_row prediction original_mask id).

Definition enumerate {A} (l : list A) : list (nat * A) := zip (seq 0 (length l)) l.

(** One iteration of the loop on lines 70-101. *)
Definition predict_case (m : model) (df : list patient)
    (pred_temp_filename mask_temp_filename : string) (item : nat * batch) (_ : unit) : M unit :=
  match df !! fst item with
  | None => raise IndexError
  | Some patient =>
      match pat_images patient with
      | [] => raise IndexError
      | image0 :: _ =>
          let original_image := image_read image0 in
          let prediction := predict_single_example m (fst (snd item)) original_image in
          let! _ := emit (EvPredict (pat_id patient)) in
          let! a := get_args in
          let! _ := image_write (path_join (arg_results a)
                                   ["predictions"; "train"; "raw"; pat_id patient +:+ ".nii.gz"]) in
          let original_mask := image_read (pat_mask patient) in
          let! eval_results := evaluate_prediction prediction original_mask (pat_id patient)
                                 pred_temp_filename mask_temp_filename in
          append_result eval_results
      end
  end.

Definition pred_temp_filename (a : Args) : string :=
  path_join (arg_results a) ["predictions"; "train"; "raw"; "pred_temp.nii.gz"].

Definition mask_temp_filename (a : Args) : string :=
  path_join (arg_results a) ["predictions"; "train"; "raw"; "mask_temp.nii.gz"].

(** [predict_and_evaluate_val(model_path, df, ds)], lines 63-110. *)
Definition predict_and_evaluate_val (model_path : string) (df : list patient)
    (ds : dataset batch) : M unit :=
  let! m := load_model model_path in
  let! a := get_args in
  let! _ := for_each (predict_case m df (pred_temp_filename a) (mask_temp_filename a))
              (enumerate (ds_take (length df) ds)) tt in
  let! _ := os_remove (pred_temp_filename a) in
  os_remove (mask_temp_filename a).

(** *** The metrics aggregator *)

(** Modelled from the spec: [kFoldMetrics.on_epoch_end] of kFoldMetrics.py,
    which is not under src/: it records the validation loss and the
    learning rate as one row of its log. *)
Definition on_epoch_end (val_loss : Mean.t) (learning_rate : Q) : M unit :=
  let! _ := emit (EvOnEpochEnd (Mean.result val_loss) learning_rate) in
  let! k := get_k_metrics in
  put_k_metrics (k ++ [(Mean.result val_loss, learning_rate)]).

Definition on_kFold_end : M unit := emit EvOnKFoldEnd.
Definition on_training_end : M unit := emit EvOnTrainingEnd.

(** *** One fold: the body of the loop on lines 175-365 *)

Definition fold_best_model_path (a : Args) (fold : nat) : string :=
  path_join (arg_results a)
    ["models"; "best"; data_task data_manifest +:+ "_best_model_split_" +:+ pretty fold].

Definition fold_last_model_path (a : Args) (fold : nat) : string :=
  path_join (arg_results a)
    ["models"; "last"; data_task data_manifest +:+ "_last_model_split_" +:+ pretty fold].

(** Lines 176-280: data for the fold, steps per epoch, and the objects
    built for the fold. *)
Definition fold_setup (patch_size : list nat) (depth : nat) (fold : nat)
  : M (fold_data * fold_locals) :=
  let! _ := emit (EvFoldStart fold) in
  let! fd := match splits !! fold with
             | Some fd => ret fd
             | None => raise IndexError
             end in
  let! a := get_args in
  let! steps_per_epoch :=
    match arg_steps_per_epoch a with
    | None => py_floordiv (length (fd_train_images fd)) (arg_batch_size a)
    | Some s => ret s
    end in
  let! _ := put_args (set_steps_per_epoch (Some steps_per_epoch) a) in
  let! a := get_args in
  let optimizer := get_optimizer a in
  let model := get_model a patch_size n_channels n_classes depth in
  let checkpoint := {| best_model_path := fold_best_model_path a fold;
                       last_model_path := fold_last_model_path a fold;
                       best_val_loss := Infinity |} in
  ret (fd, Locals model optimizer Mean.empty Mean.empty checkpoint 1 1).

(** The steps per epoch of a fold: the configured value, or else the one
    derived from the fold's training files. *)
Definition derived_steps_per_epoch (a : Args) (fd : fold_data) : option nat :=
  match arg_steps_per_epoch a with
  | Some s => Some s
  | None =>
      match arg_batch_size a with
      | O => None
      | S _ => Some (length (fd_train_images fd) / arg_batch_size a)
      end
  end.

Definition fresh_locals (a : Args) (patch_size : list nat) (depth fold : nat) : fold_locals :=
  Locals (get_model a patch_size n_channels n_classes depth)
    (get_optimizer a) Mean.empty Mean.empty
    {| best_model_path := fold_best_model_path a fold;
       last_model_path := fold_last_model_path a fold;
       best_val_loss := Infinity |} 1 1.

(** Lines 282-320. *)
Definition fold_training (fuel : nat) (patch_size : list nat) (fd : fold_data)
    (l : fold_locals) : M fold_locals :=
  let! a := get_args in
  let! steps_per_epoch :=
    match arg_steps_per_epoch a with
    | Some s => ret s
    | None => raise TypeError
    end in
  let total_steps := arg_epochs a * steps_per_epoch in
  train_loop fuel patch_size fd total_steps 0 l.

(** Lines 321-328: the learning rate, the metrics hook, the final save. *)
Definition fold_finish (l : fold_locals) : M unit :=
  let! a := get_args in
  let! _ := (if String.eqb (arg_optimizer a) "adam"
             then put_learning_rate (Some (optimizer_learning_rate (l_optimizer l)))
             else ret tt) in
  let! learning_rate := read_learning_rate in
  let! _ := on_epoch_end (l_val_loss l) learning_rate in
  Checkpoints_save_last_model (l_checkpoint l) (l_model l)
    (best_model_path (l_checkpoint l) +:+ "/best/").

(** Lines 335-357: test-set prediction with the best model. *)
Definition fold_test_eval (fd : fold_data) (l : fold_locals) : M unit :=
  let! _ := predict_and_evaluate_val (best_model_path (l_checkpoint l))
              (fd_test_df fd) (fd_test_loader fd) in
  on_kFold_end.

Definition train_fold (fuel : nat) (patch_size : list nat) (depth : nat) (fold : nat)
    (_ : unit) : M unit :=
  let! fdl := fold_setup patch_size depth fold in
  let! l := fold_training fuel patch_size (fst fdl) (snd fdl) in
  let! _ := fold_finish l in
  fold_test_eval (fst fdl) l.

(** *** [RunTime.train], lines 112-369 *)

(** Lines 131-172: patch size, depth, a new metrics aggregator.  The
    local [learning_rate] of [train] starts out unassigned. *)
Definition train_init : M (list nat * nat) :=
  let! a := get_args in
  let patch_size := match arg_patch_size a with
                    | None => [64; 64; 64]
                    | Some p => p
                    end in
  let depth := match arg_depth a with
               | None => default_depth patch_size
               | Some d => d
               end in
  let! _ := put_k_metrics [] in
  let! _ := put_learning_rate None in
  ret (patch_size, depth).

Definition train (fuel : nat) : M unit :=
  let! pd := train_init in
  let! a := get_args in
  let! _ := for_each (train_fold fuel (fst pd) (snd pd)) (arg_folds a) tt in
  on_training_end.

End RunTime.

(** ** Reading a trace *)

Section Observations.
Context `{Collaborators}.

Definition train_step_of (e : event) : option nat :=
  match e with
  | EvTrainStep g _ _ => Some g
  | _ => None
  end.

(** The [global_step] of every [train_step] call, in order. *)
Definition train_steps (tr : list event) : list nat := omap train_step_of tr.

Definition round_of (e : event) : option (model * Q) :=
  match e with
  | EvCheckpointUpdate m c => Some (m, c)
  | _ => None
  end.

(** The validation rounds of a trace: the model and the loss handed to
    [checkpoint.update] at the end of each. *)
Definition validation_rounds (tr : list event) : list (model * Q) := omap round_of tr.

Definition val_step_of (e : event) : option (tensor tdata * tensor tdata) :=
  match e with
  | EvValStep i m => Some (i, m)
  | _ => None
  end.

Definition val_steps (tr : list event) : list (tensor tdata * tensor tdata) :=
  omap val_step_of tr.

Inductive hook :=
| HookEpochEnd
| HookKFoldEnd
| HookTrainingEnd.

Definition hook_of (e : event) : option hook :=
  match e with
  | EvOnEpochEnd _ _ => Some HookEpochEnd
  | EvOnKFoldEnd => Some HookKFoldEnd
  | EvOnTrainingEnd => Some HookTrainingEnd
  | _ => None
  end.

(** The metrics-aggregator hooks of a trace, in order. *)
Definition hooks (tr : list event) : list hook := omap hook_of tr.

(** Events of the training part of a fold: everything before the
    end-of-fold metrics hook. *)
Definition training_event (e : event) : Prop :=
  match e with
  | EvFoldStart _ | EvTrainStep _ _ _ | EvValStep _ _ | EvCheckpointUpdate _ _
  | EvSave _ _ | EvLogsUpdate _ => True
  | _ => False
  end.

End Observations.

(** ** Closed forms of the loop body

    The state after a training step and after a validation round, written
    as functions of the state before; the lemmas further down show that
    the monadic code computes exactly these. *)

Section ClosedForms.
Context `{Collaborators}.
Variable data_manifest : Data.

Definition add_events (evs : list event) (w : world) : world :=
  World (w_args w) (w_results_df w) (w_k_metrics w) (w_fs w) (w_trace w ++ evs)
    (w_learning_rate w).

Definition with_fs (fs : gmap string file) (w : world) : world :=
  World (w_args w) (w_results_df w) (w_k_metrics w) fs (w_trace w) (w_learning_rate w).

(** [c] is strictly below the best loss seen so far. *)
Definition loss_below (c : Q) (best : xloss) : Prop :=
  match best with
  | Infinity => True
  | Finite b => (c < b)%Q
  end.

(** [(global_step + 1) % steps_per_epoch == 0 and global_step > 0] *)
Definition epoch_boundary (steps_per_epoch global_step : nat) : bool :=
  ((global_step + 1) mod steps_per_epoch =? 0) && (0 <? global_step).

(** The number of steps among [g, g+1, ..., g+n-1] at which the test of
    line 303 succeeds. *)
Fixpoint boundary_count (steps_per_epoch g n : nat) : nat :=
  match n with
  | O => 0
  | S n' =>
      (if epoch_boundary steps_per_epoch g then 1 else 0)
      + boundary_count steps_per_epoch (S g) n'
  end.

Definition locals_after_train_step (a : Args) (image mask : tensor tdata) (l : fold_locals)
  : fold_locals :=
  let '(m, o, unscaled_loss) := gradient_step a (l_model l) (l_optimizer l) image mask in
  Locals m o (Mean.update_state unscaled_loss (l_train_loss l)) (l_val_loss l)
    (l_checkpoint l) (l_current_epoch l) (S (l_local_step l)).

(** The batches of one validation round. *)
Definition val_batches (fd : fold_data) : list batch :=
  ds_take (length (fd_val_images fd)) (fd_val_loader fd).

(** The validation losses of the batches [bs] under model [m]. *)
Definition val_losses (a : Args) (patch_size : list nat) (m : model) (bs : list batch)
  : list Q :=
  map (fun b => sliding_window_dice a patch_size (n_classes data_manifest) m (fst b) (snd b)) bs.

Definition val_events (bs : list batch) : list event :=
  map (fun b => EvValStep (fst b) (snd b)) bs.

Definition checkpoint_after (ck : Checkpoints) (c : Q) : Checkpoints :=
  if loss_lt c (best_val_loss ck)
  then {| best_model_path := best_model_path ck;
          last_model_path := last_model_path ck;
          best_val_loss := Finite c |}
  else ck.

Definition fs_after_update (ck : Checkpoints) (m : model) (c : Q) (fs : gmap string file)
  : gmap string file :=
  if loss_lt c (best_val_loss ck)
  then <[best_model_path ck := SavedModel m]> (<[last_model_path ck := SavedModel m]> fs)
  else <[last_model_path ck := SavedModel m]> fs.

Definition save_events (ck : Checkpoints) (m : model) (c : Q) : list event :=
  EvSave (last_model_path ck) m
  :: (if loss_lt c (best_val_loss ck) then [EvSave (best_model_path ck) m] else []).

(** The loss handed to [checkpoint.update] by a round entered in state [l]. *)
Definition round_loss (a : Args) (patch_size : list nat) (fd : fold_data) (l : fold_locals) : Q :=
  Mean.result (fold_left (fun acc x => Mean.update_state x acc)
                 (val_losses a patch_size (l_model l) (val_batches fd)) (l_val_loss l)).

Definition locals_after_validation (a : Args) (patch_size : list nat) (fd : fold_data)
    (l : fold_locals) : fold_locals :=
  Locals (l_model l) (l_optimizer l) Mean.empty Mean.empty
    (checkpoint_after (l_checkpoint l) (round_loss a patch_size fd l))
    (S (l_current_epoch l)) 1.

Definition validation_events (a : Args) (patch_size : list nat) (fd : fold_data)
    (l : fold_locals) : list event :=
  val_events (val_batches fd)
  ++ EvCheckpointUpdate (l_model l) (round_loss a patch_size fd l)
  :: save_events (l_checkpoint l) (l_model l) (round_loss a patch_size fd l)
  ++ [EvLogsUpdate (l_current_epoch l)].

Definition world_after_validation (patch_size : list nat) (fd : fold_data) (l : fold_locals)
    (w : world) : world :=
  add_events (validation_events (w_args w) patch_size fd l)
    (with_fs (fs_after_update (l_checkpoint l) (l_model l)
                (round_loss (w_args w) patch_size fd l) (w_fs w)) w).

(** The tensor produced by a successful [rgb_to_grayscale]. *)
Definition gray (t : tensor tdata) : tensor tdata :=
  Tensor (removelast (shape t) ++ [1]) (gray_data (data t)).

Definition is_rgb (t : tensor tdata) : Prop := last (shape t) = Some 3.

#[global] Instance is_rgb_dec (t : tensor tdata) : Decision (is_rgb t).
Proof. unfold is_rgb. apply _. Defined.

Definition single_channel (t : tensor tdata) : Prop := last (shape t) = Some 1.

(** The exception [rgb_to_grayscale] raises on a tensor that is not RGB. *)
Definition conversion_error (t : tensor tdata) : exn :=
  match last (shape t) with
  | None => IndexError
  | Some _ => InvalidArgumentError
  end.

(** The exception of lines 286-287 on a batch that is not RGB: the image
    is converted first. *)
Definition batch_conversion_error (image mask : tensor tdata) : exn :=
  if decide (is_rgb image) then conversion_error mask else conversion_error image.

(** A [train_step] event whose image and mask have one channel. *)
Definition grayscale_train_event (e : event) : Prop :=
  match e with
  | EvTrainStep _ image mask => single_channel image /\ single_channel mask
  | _ => True
  end.

(** The result of an iteration that performs a training step. *)
Definition iteration_result (patch_size : list nat) (fd : fold_data) (s g : nat)
    (image mask : tensor tdata) (l : fold_locals) (w : world)
  : outcome (option fold_locals) * world :=
  let l1 := locals_after_train_step (w_args w) (gray image) (gray mask) l in
  let w1 := add_events [EvTrainStep g (gray image) (gray mask)] w in
  if epoch_boundary s g
  then (Ok (Some (locals_after_validation (w_args w) patch_size fd l1)),
        world_after_validation patch_size fd l1 w1)
  else (Ok (Some l1), w1).

(** The training iterator yields an RGB image and mask as item [i]. *)
Definition yields_rgb (fd : fold_data) (i : nat) : Prop :=
  exists image mask, fd_train_loader fd i = Some (image, mask) /\ is_rgb image /\ is_rgb mask.

(** The number of validation rounds of a fold that trains for [epochs]
    epochs of [s] steps: the test of line 303 fails at global step 0, so a
    fold with one step per epoch misses its first round. *)
Definition validation_round_count (epochs s : nat) : nat :=
  match s with
  | 0 => 0
  | 1 => epochs - 1
  | _ => epochs
  end.


(** Round [k] of [rounds], with model [m] and loss [c], is the earliest
    round of least loss. *)
Definition first_minimum (rounds : list (model * Q)) (k : nat) (m : model) (c : Q) : Prop :=
  rounds !! k = Some (m, c) /\
  (forall j mj cj, rounds !! j = Some (mj, cj) -> (c <= cj)%Q) /\
  (forall j mj cj, j < k -> rounds !! j = Some (mj, cj) -> (c < cj)%Q).

(** What the best slot of a fold holds after the validation rounds
    [rounds]: as long as there was no round, what was at the path before
    the fold ([prev]); afterwards the model of the earliest round of least
    loss, whose loss the tracker remembers. *)
Definition best_state (best_path : string) (prev : option file) (best : xloss)
    (fs : gmap string file) (rounds : list (model * Q)) : Prop :=
  (rounds = [] /\ best = Infinity /\ fs !! best_path = prev) \/
  (exists k m c,
     best = Finite c /\ fs !! best_path = Some (SavedModel m) /\ first_minimum rounds k m c).

(** The state of the best slot along the training loop of a fold that
    started in world [w0]. *)
Definition best_invariant (w0 : world) (prev : option file) (best_path last_path : string)
    (l : fold_locals) (w : world) : Prop :=
  best_model_path (l_checkpoint l) = best_path /\
  last_model_path (l_checkpoint l) = last_path /\
  exists new,
    w_trace w = w_trace w0 ++ new /\
    best_state best_path prev (best_val_loss (l_checkpoint l)) (w_fs w) (validation_rounds new).

(** Events of the test evaluation of a fold. *)
Definition test_event (e : event) : Prop :=
  match e with
  | EvPredict _ => True
  | _ => False
  end.

(** The shape of the trace of one fold that ran to its end: the training
    part, then [on_epoch_end] once and the end-of-fold save, then the
    test evaluation, then [on_kFold_end] once. *)
Definition fold_trace (fold : nat) (tr : list event) : Prop :=
  exists training v lr p m testing,
    tr = EvFoldStart fold :: training
         ++ [EvOnEpochEnd v lr; EvSave p m] ++ testing ++ [EvOnKFoldEnd] /\
    Forall training_event training /\
    Forall test_event testing.


(** Set-up and training loop of a fold, lines 176-320. *)
Definition fold_setup_and_training (splits : list fold_data) (fuel : nat)
    (patch_size : list nat) (depth fold : nat) : M fold_locals :=
  bind (fold_setup data_manifest splits patch_size depth fold)
    (fun fdl => fold_training data_manifest fuel patch_size (fst fdl) (snd fdl)).

(** [c] takes every world to one related to it by [R], whatever the
    outcome. *)
Definition preserves {A} (R : relation world) (c : M A) : Prop :=
  forall w, R w (snd (c w)).

(** The field [f] of the world is left as it was. *)
Definition keeps {X} (f : world -> X) : relation world := fun w w' => f w' = f w.

(** The trace grows by events that satisfy [P]. *)
Definition extends_by (P : event -> Prop) : relation world :=
  fun w w' => exists new, w_trace w' = w_trace w ++ new /\ Forall P new.

End ClosedForms.

(** ** Patch origins of the sliding-window inference engine *)

(** [ceil(a / b)] *)
Definition div_ceil (a b : nat) : nat := (a + b - 1) / b.

(** Modelled from the spec: the patch origins along one axis, which
    [sliding_window_inference] of inference/sliding_window.py computes;
    that file is not under src/.  Origins start at 0 and advance by the
    step size, and the final origin is clamped to [volume - patch]. *)
Definition axis_origins (volume patch step : nat) : list nat :=
  map (fun i => Nat.min (i * step) (volume - patch))
    (seq 0 (S (div_ceil (volume - patch) step))).

Fixpoint axes_origins (volume patch step : list nat) : list (list nat) :=
  match volume, patch, step with
  | v :: vs, p :: ps, s :: ss => axis_origins v p s :: axes_origins vs ps ss
  | _, _, _ => []
  end.

Fixpoint cartesian (axes : list (list nat)) : list (list nat) :=
  match axes with
  | [] => [[]]
  | xs :: rest => flat_map (fun x => map (cons x) (cartesian rest)) xs
  end.

(** Modelled from the spec: the set of patch origins of a volume, one
    origin per combination of the per-axis origins. *)
Definition patch_origins (volume patch step : list nat) : list (list nat) :=
  cartesian (axes_origins volume patch step).

(** [voxel] lies in a volume of shape [volume]. *)
Definition in_volume (volume voxel : list nat) : Prop :=
  Forall2 (fun x v => x < v) voxel volume.

(** [voxel] lies in the patch region [origin, origin + patch). *)
Definition in_patch (origin patch voxel : list nat) : Prop :=
  Forall3 (fun o p x => o <= x < o + p) origin patch voxel.

(** The patch region at [origin] stays inside the volume. *)
Definition patch_inside (volume origin patch : list nat) : Prop :=
  Forall3 (fun v o p => o + p <= v) volume origin patch.

(** Shapes the engine accepts: along every axis the patch fits in the
    volume and the step, [patch * (1 - overlap)] with an overlap in
    [0, 1), is positive and at most the patch. *)
Definition valid_shapes (volume patch step : list nat) : Prop :=
  Forall3 (fun v p s => 1 <= s <= p /\ p <= v) volume patch step.

(** ** A small concrete instance

    Models and optimizers are counters of the gradient steps applied; the
    validation loss of a model is looked up in a table. *)

Definition demo_loss (m : nat) : Q :=
  match m with
  | 2 => 9 # 10
  | 4 => 5 # 10
  | 6 => 7 # 10
  | 8 => 3 # 10
  | _ => 6 # 10
  end.

Definition demo : Collaborators :=
  {| model := nat;
     optimizer := nat;
     tdata := nat;
     volume := nat;
     row := string;
     get_model := fun _ _ _ _ _ => 0;
     get_optimizer := fun _ => 0;
     optimizer_learning_rate := fun _ => 1 # 1000;
     default_depth := fun _ => 4;
     gradient_step := fun _ m o _ _ => (S m, S o, 1 # 4);
     sliding_window_dice := fun _ _ _ m _ _ => demo_loss m;
     gray_data := fun d => d;
     image_read := fun _ => 0;
     predict_single_example := fun m _ _ => m;
     evaluate_row := fun _ _ id => id |}.

Definition demo_data : Data :=
  {| data_task := "liver"; data_images := ["r"; "g"; "b"]; data_labels := [0; 1] |}.

Definition demo_rgb : tensor nat := Tensor [2; 8; 8; 3] 7.

Definition demo_patient (id : string) : patient :=
  {| pat_id := id; pat_mask := id +:+ "_mask.nii.gz"; pat_images := [id +:+ "_0000.nii.gz"] |}.

Definition demo_batch : @batch demo := (demo_rgb, demo_rgb).

(** A fold with [n] training files, two validation files and one test case. *)
Definition demo_fold (n : nat) (test_id : string) : @fold_data demo :=
  {| fd_train_images := replicate n "img";
     fd_val_images := ["v0"; "v1"];
     fd_train_loader := ds_cycle [demo_batch];
     fd_val_loader := ds_of_list [demo_batch; demo_batch];
     fd_test_df := [demo_patient test_id];
     fd_test_loader := ds_of_list [demo_batch] |}.

Definition demo_splits : list (@fold_data demo) := [demo_fold 4 "p0"; demo_fold 6 "p1"].

Definition demo_args (folds : list nat) (steps_per_epoch : option nat) (epochs : nat)
    (optimizer_name : string) : Args :=
  {| arg_results := "out";
     arg_folds := folds;
     arg_patch_size := None;
     arg_depth := None;
     arg_steps_per_epoch := steps_per_epoch;
     arg_batch_size := 2;
     arg_epochs := epochs;
     arg_optimizer := optimizer_name |}.

Definition demo_world (a : Args) : @world demo := World a [] [] ∅ [] None.

Definition demo_patch_size : list nat := [64; 64; 64].

(** The state in which the first fold of a demo run starts training. *)
Definition demo_locals (a : Args) (fold : nat) : @fold_locals demo :=
  @fresh_locals demo demo_data a demo_patch_size 4 fold.

(** One fold, one step per epoch, three epochs. *)
Definition demo_args_one_step : Args := demo_args [0] (Some 1) 3 "adam".

(** One fold, two steps per epoch, two epochs. *)
Definition demo_args_two_epochs : Args := demo_args [0] (Some 2) 2 "adam".

(** One fold, two steps per epoch, five epochs: validation losses
    0.9, 0.5, 0.7, 0.3, 0.6. *)
Definition demo_args_five_epochs : Args := demo_args [0] (Some 2) 5 "adam".

(** Two folds, steps per epoch left to be derived. *)
Definition demo_args_derived : Args := demo_args [0; 1] None 2 "adam".

(** Two folds and an optimizer other than adam. *)
Definition demo_args_sgd : Args := demo_args [0; 1] (Some 2) 2 "sgd".

(** The events a computation adds to the trace of the world it starts in. *)
Definition new_events {A} (c : @M demo A) (w : @world demo) : list (@event demo) :=
  drop (length (w_trace w)) (w_trace (snd (c w))).

(** A world whose disk holds one saved model and nothing else. *)
Definition demo_world_with_model : @world demo :=
  World demo_args_two_epochs [] [] {["model" := @SavedModel demo 0]} [] None.

(** The value of a computation that ended normally. *)
Definition ok_or {A W : Type} (default : A) (r : outcome A * W) : A :=
  match fst r with
  | Ok a => a
  | _ => default
  end.

(** The world in which the training loop of fold [fold] starts when the
    run starts in [demo_world a]. *)
Definition demo_fold_start (a : Args) (fold : nat) : @world demo :=
  World a [] [] ∅ [EvFoldStart fold] None.

(** The training loop of fold 0 of a demo run. *)
Definition demo_training (a : Args) : outcome (@fold_locals demo) * @world demo :=
  @fold_training demo demo_data 100 demo_patch_size (demo_fold 4 "p0")
    (demo_locals a 0) (demo_fold_start a 0).

Definition demo_trained_locals (a : Args) : @fold_locals demo :=
  ok_or (demo_locals a 0) (demo_training a).

Definition demo_trained_world (a : Args) : @world demo := snd (demo_training a).


(** ** Further observations and closed forms *)

Section MoreClosedForms.
Context `{Collaborators}.
Variable data_manifest : Data.

Definition logged_epoch_of (e : event) : option nat :=
  match e with
  | EvLogsUpdate epoch => Some epoch
  | _ => None
  end.

(** The epoch numbers handed to [logs.update], in order. *)
Definition logged_epochs (tr : list event) : list nat := omap logged_epoch_of tr.

(** The model and optimizer after the gradient steps on [batches], each
    batch converted to grayscale first; nothing else touches them. *)
Definition gradient_steps (a : Args) (batches : list batch) (mo : model * optimizer)
  : model * optimizer :=
  fold_left
    (fun mo b =>
       let '(m, o, _) := gradient_step a (fst mo) (snd mo) (gray (fst b)) (gray (snd b)) in
       (m, o))
    batches mo.

(** How the loop ends when the iteration it stops at has result [stop]. *)
Definition stop_result (stop : outcome (option fold_locals)) (l : fold_locals)
  : outcome fold_locals :=
  match stop with
  | Ok _ => Ok l
  | Raise e => Raise e
  | OutOfFuel => OutOfFuel
  end.

(** The number of validation rounds among the first [n] global steps. *)
Definition rounds_after (s n : nat) : nat := if s =? 1 then n - 1 else n / s.

(** Of [self.args], at most the steps per epoch differ between the two
    worlds, and a value that was set is kept. *)
Definition only_steps_per_epoch_set : relation world :=
  fun w w' =>
    set_steps_per_epoch None (w_args w') = set_steps_per_epoch None (w_args w) /\
    (forall s, arg_steps_per_epoch (w_args w) = Some s ->
               arg_steps_per_epoch (w_args w') = Some s).

(** The results row of one case, lines 71-95. *)
Definition case_row (m : model) (p : patient) (b : batch) : row :=
  evaluate_row
    (predict_single_example m (fst b) (image_read (hd "" (pat_images p))))
    (image_read (pat_mask p)) (pat_id p).

(** The items of the test loader the evaluation of a fold goes through. *)
Definition test_items (fd : fold_data) : list batch :=
  ds_take (length (fd_test_df fd)) (fd_test_loader fd).

(** The number of test cases the folds [folds] evaluate in all. *)
Definition evaluated_cases (splits : list fold_data) (folds : list nat) : nat :=
  sum_list (map (fun fold => match splits !! fold with
                             | Some fd => length (test_items fd)
                             | None => 0
                             end) folds).

(** The epoch counter is one more than the number of validation rounds
    run, and the rounds were logged under the numbers 1, 2, ... *)
Definition epochs_invariant (w0 : world) (l : fold_locals) (w : world) : Prop :=
  exists new,
    w_trace w = w_trace w0 ++ new /\
    logged_epochs new = seq 1 (length (validation_rounds new)) /\
    l_current_epoch l = S (length (validation_rounds new)).

(** For each validation round of a trace, the number of training steps
    made before it, counting on from [n]. *)
Fixpoint round_positions_from (n : nat) (tr : list event) : list nat :=
  match tr with
  | [] => []
  | EvTrainStep _ _ _ :: tr' => round_positions_from (S n) tr'
  | EvCheckpointUpdate _ _ :: tr' => n :: round_positions_from n tr'
  | _ :: tr' => round_positions_from n tr'
  end.

Definition round_positions (tr : list event) : list nat := round_positions_from 0 tr.

(** A number of training steps that ends an epoch of [self.args], other
    than the very first step. *)
Definition at_epoch_end (a : Args) (p : nat) : Prop :=
  1 < p /\ exists s, arg_steps_per_epoch a = Some s /\ s <> 0 /\ p mod s = 0.

(** The trace of the training loop after [g] steps: so many training
    steps were made, and every validation round came at the end of an
    epoch. *)
Definition rounds_invariant (w0 : world) (g : nat) (w : world) : Prop :=
  w_args w = w_args w0 /\
  exists new,
    w_trace w = w_trace w0 ++ new /\
    length (train_steps new) = g /\
    Forall (at_epoch_end (w_args w0)) (round_positions new).




(** The paths a fold saves models to: the best and the last slot of its
    checkpoint tracker (lines 268-274) and the end-of-fold save under the
    best path (line 328). *)
Definition fold_checkpoint_paths (a : Args) (fold : nat) : list string :=
  [fold_best_model_path data_manifest a fold;
   fold_last_model_path data_manifest a fold;
   fold_best_model_path data_manifest a fold +:+ "/best/"].

(** A [model.save] goes to one of [paths]. *)
Definition saves_within (paths : list string) (e : event) : Prop :=
  match e with
  | EvSave path _ => path ∈ paths
  | _ => True
  end.

Definition is_digit (c : ascii) : bool :=
  (48 <=? nat_of_ascii c) && (nat_of_ascii c <=? 57).

End MoreClosedForms.

(** ** More concrete inputs *)

(** A single-channel tensor, which [rgb_to_grayscale] rejects. *)
Definition demo_one_channel : tensor nat := Tensor [2; 8; 8; 1] 7.

(** A fold whose training iterator yields the batches [batches] and then
    is exhausted. *)
Definition demo_fold_with (batches : list (@batch demo)) : @fold_data demo :=
  {| fd_train_images := replicate 4 "img";
     fd_val_images := ["v0"; "v1"];
     fd_train_loader := ds_of_list batches;
     fd_val_loader := ds_of_list [demo_batch; demo_batch];
     fd_test_df := [demo_patient "p0"];
     fd_test_loader := ds_of_list [demo_batch] |}.

(** Three batches, one short of the budget of two epochs of two steps. *)
Definition demo_fold_short : @fold_data demo :=
  demo_fold_with [demo_batch; demo_batch; demo_batch].

(** A good batch followed by one with a single-channel image. *)
Definition demo_fold_malformed : @fold_data demo :=
  demo_fold_with [demo_batch; ((demo_one_channel, demo_rgb) : @batch demo)].

(** Three requested folds, the second outside the two splits. *)
Definition demo_args_bad_fold : Args := demo_args [0; 7; 1] (Some 2) 2 "adam".

(** One epoch of one step: no validation round. *)
Definition demo_args_single_step : Args := demo_args [0] (Some 1) 1 "adam".

(** A row of the frame without an image path. *)
Definition demo_patient_no_image : patient :=
  {| pat_id := "p1"; pat_mask := "p1_mask.nii.gz"; pat_images := [] |}.








(** ** Reasoning about runs *)

Section Proofs.
Context `{Collaborators}.
Variable data_manifest : Data.
Variable splits : list fold_data.

Lemma bind_ok {A B} (c : M A) (k : A -> M B) (w w1 : world) (a : A) :
  c w = (Ok a, w1) -> bind c k w = k a w1.
Proof. intros Hc. unfold bind. rewrite Hc. reflexivity. Qed.

Lemma bind_raise {A B} (c : M A) (k : A -> M B) (w w1 : world) (e : exn) :
  c w = (Raise e, w1) -> bind c k w = (Raise e, w1).
Proof. intros Hc. unfold bind. rewrite Hc. reflexivity. Qed.

Lemma bind_out_of_fuel {A B} (c : M A) (k : A -> M B) (w w1 : world) :
  c w = (OutOfFuel, w1) -> bind c k w = (OutOfFuel, w1).
Proof. intros Hc. unfold bind. rewrite Hc. reflexivity. Qed.

(** *** Relations between the world before and after a computation *)

#[local] Instance keeps_preorder {X} (f : world -> X) : PreOrder (keeps f).
Proof.
  split.
  - intros w. reflexivity.
  - intros w1 w2 w3 H12 H23. unfold keeps in *. congruence.
Qed.

#[local] Instance extends_by_preorder (P : event -> Prop) : PreOrder (extends_by P).
Proof.
  split.
  - intros w. exists []. split; [by rewrite app_nil_r | constructor].
  - intros w1 w2 w3 (n1 & E1 & F1) (n2 & E2 & F2).
    exists (n1 ++ n2). split.
    + rewrite E2, E1. by rewrite app_assoc.
    + by apply Forall_app.
Qed.

Lemma preserves_ret {A} (R : relation world) `{!PreOrder R} (a : A) : preserves R (ret a).
Proof. intros w. reflexivity. Qed.

Lemma preserves_raise {A} (R : relation world) `{!PreOrder R} (e : exn) :
  preserves R (@raise _ A e).
Proof. intros w. reflexivity. Qed.

Lemma preserves_out_of_fuel {A} (R : relation world) `{!PreOrder R} :
  preserves R (@out_of_fuel _ A).
Proof. intros w. reflexivity. Qed.

Lemma preserves_bind {A B} (R : relation world) `{!PreOrder R} (c : M A) (k : A -> M B) :
  preserves R c -> (forall a, preserves R (k a)) -> preserves R (bind c k).
Proof.
  intros Hc Hk w. unfold bind.
  specialize (Hc w). destruct (c w) as [[a | e |] w1]; simpl in *; try assumption.
  etrans; [exact Hc | apply Hk].
Qed.

Lemma preserves_for_each {A S} (R : relation world) `{!PreOrder R}
    (body : A -> S -> M S) (xs : list A) :
  (forall x s, preserves R (body x s)) -> forall s, preserves R (for_each body xs s).
Proof.
  intros Hbody. induction xs as [| x xs IH]; intros s; simpl.
  - by apply preserves_ret.
  - apply preserves_bind; [done | apply Hbody | apply IH].
Qed.

Lemma preserves_get_args (R : relation world) `{!PreOrder R} : preserves R get_args.
Proof. intros w. reflexivity. Qed.

Lemma preserves_get_fs (R : relation world) `{!PreOrder R} : preserves R get_fs.
Proof. intros w. reflexivity. Qed.

Lemma preserves_get_k_metrics (R : relation world) `{!PreOrder R} : preserves R get_k_metrics.
Proof. intros w. reflexivity. Qed.

Lemma preserves_read_learning_rate (R : relation world) `{!PreOrder R} :
  preserves R read_learning_rate.
Proof. intros w. unfold read_learning_rate. destruct (w_learning_rate w); reflexivity. Qed.

Lemma preserves_rgb_to_grayscale (R : relation world) `{!PreOrder R} (t : tensor tdata) :
  preserves R (rgb_to_grayscale t).
Proof.
  intros w. unfold rgb_to_grayscale.
  destruct (last (shape t)) as [[| [| [| [| n]]]] |]; reflexivity.
Qed.

Lemma preserves_py_mod (R : relation world) `{!PreOrder R} (a b : nat) : preserves R (py_mod a b).
Proof. intros w. destruct b; reflexivity. Qed.

Lemma preserves_py_floordiv (R : relation world) `{!PreOrder R} (a b : nat) :
  preserves R (py_floordiv a b).
Proof. intros w. destruct b; reflexivity. Qed.

Lemma extends_by_emit (P : event -> Prop) (e : event) : P e -> preserves (extends_by P) (emit e).
Proof. intros He w. exists [e]. split; [reflexivity | by constructor]. Qed.

Lemma extends_by_silent {A} (P : event -> Prop) (c : M A) :
  (forall w, w_trace (snd (c w)) = w_trace w) -> preserves (extends_by P) c.
Proof. intros Hc w. exists []. split; [by rewrite Hc, app_nil_r | constructor]. Qed.

Lemma preserves_train_loop (R : relation world) `{!PreOrder R}
    (patch_size : list nat) (fd : fold_data) (total_steps : nat) :
  (forall g l, preserves R (train_iteration data_manifest patch_size fd total_steps g l)) ->
  forall fuel g l, preserves R (train_loop data_manifest fuel patch_size fd total_steps g l).
Proof.
  intros Hit. induction fuel as [| fuel IH]; intros g l; simpl.
  - by apply preserves_out_of_fuel.
  - apply preserves_bind; [done | apply Hit |].
    intros [l' |]; [apply IH | by apply preserves_ret].
Qed.

(** Leaves of a preservation proof: a state primitive that does not touch
    the field, or that emits an event satisfying the predicate. *)
Ltac preserves_leaf :=
  first
    [ apply extends_by_emit; simpl; solve [done | tauto | eauto]
    | apply extends_by_silent; intros ?; reflexivity
    | intros ?; reflexivity
    | intros ?; unfold keeps; simpl; solve [reflexivity | congruence] ].

Ltac preserves_step :=
  lazymatch goal with
  | |- preserves _ (bind _ _) => apply preserves_bind; [apply _ | | intros ?]
  | |- preserves _ (ret _) => apply preserves_ret; apply _
  | |- preserves _ (raise _) => apply preserves_raise; apply _
  | |- preserves _ out_of_fuel => apply preserves_out_of_fuel; apply _
  | |- preserves _ get_args => apply preserves_get_args; apply _
  | |- preserves _ get_fs => apply preserves_get_fs; apply _
  | |- preserves _ get_k_metrics => apply preserves_get_k_metrics; apply _
  | |- preserves _ read_learning_rate => apply preserves_read_learning_rate; apply _
  | |- preserves _ (rgb_to_grayscale _) => apply preserves_rgb_to_grayscale; apply _
  | |- preserves _ (py_mod _ _) => apply preserves_py_mod; apply _
  | |- preserves _ (py_floordiv _ _) => apply preserves_py_floordiv; apply _
  | |- preserves _ (for_each _ _ _) => apply preserves_for_each; [apply _ | intros ? ?]
  | |- preserves _ (train_loop _ _ _ _ _ _ _) =>
      apply preserves_train_loop; [apply _ | intros ? ?]
  | |- preserves _ (match ?x with _ => _ end) => destruct x
  | |- _ => preserves_leaf
  end.

Ltac unfold_run :=
  unfold train, train_init, train_fold, fold_test_eval, fold_finish, fold_training, fold_setup,
    on_training_end, on_kFold_end, on_epoch_end, predict_and_evaluate_val, predict_case,
    evaluate_prediction, train_iteration, validation_round, val_step, train_step,
    Checkpoints_save_last_model, Checkpoints_update, os_remove, image_write, load_model,
    save_model.

(** The same without the body of the training loop. *)
Ltac unfold_run_outer :=
  unfold train, train_init, train_fold, fold_test_eval, fold_finish, fold_training, fold_setup,
    on_training_end, on_kFold_end, on_epoch_end, predict_and_evaluate_val, predict_case,
    evaluate_prediction, Checkpoints_save_last_model, os_remove, image_write, load_model,
    save_model.

Ltac preserves_auto := repeat first [progress unfold_run | preserves_step].

(** *** What the training part of a fold leaves alone *)

Lemma train_iteration_keeps_args patch_size fd total_steps g l :
  preserves (keeps w_args) (train_iteration data_manifest patch_size fd total_steps g l).
Proof. preserves_auto. Qed.

Lemma train_loop_keeps_learning_rate fuel patch_size fd total_steps g l :
  preserves (keeps w_learning_rate) (train_loop data_manifest fuel patch_size fd total_steps g l).
Proof. preserves_auto. Qed.

Lemma fold_training_keeps_args fuel patch_size fd l :
  preserves (keeps w_args) (fold_training data_manifest fuel patch_size fd l).
Proof. preserves_auto. Qed.

Lemma fold_training_keeps_learning_rate fuel patch_size fd l :
  preserves (keeps w_learning_rate) (fold_training data_manifest fuel patch_size fd l).
Proof. preserves_auto. Qed.

Lemma fold_setup_keeps_learning_rate patch_size depth fold :
  preserves (keeps w_learning_rate) (fold_setup data_manifest splits patch_size depth fold).
Proof. preserves_auto. Qed.

Lemma fold_setup_ok patch_size depth fold w fd l0 w1 :
  fold_setup data_manifest splits patch_size depth fold w = (Ok (fd, l0), w1) ->
  exists s,
    splits !! fold = Some fd /\
    derived_steps_per_epoch (w_args w) fd = Some s /\
    w1 = World (set_steps_per_epoch (Some s) (w_args w)) (w_results_df w) (w_k_metrics w)
           (w_fs w) (w_trace w ++ [EvFoldStart fold]) (w_learning_rate w) /\
    l0 = fresh_locals data_manifest (set_steps_per_epoch (Some s) (w_args w)) patch_size depth fold.
Proof.
  unfold fold_setup, derived_steps_per_epoch, bind, emit, get_args, put_args, ret, raise,
    py_floordiv.
  intros Heq. cbn in Heq.
  destruct (splits !! fold) as [fd' |]; cbn in Heq; [| discriminate].
  destruct (arg_steps_per_epoch (w_args w)) as [s |]; cbn in Heq.
  - inversion Heq; subst. exists s. repeat split; reflexivity.
  - destruct (arg_batch_size (w_args w)) as [| b] eqn:Hb; cbn in Heq; [discriminate |].
    inversion Heq; subst. eexists. repeat split; reflexivity.
Qed.

(** *** An empty data frame at test evaluation *)

(** C10.  When [predict_and_evaluate_val] is called with an empty data
    frame, a loadable model and at least one of the two temporary files
    missing, the per-case loop runs zero times and the calls to [os.remove]
    raise [FileNotFoundError]; no prediction was made and no row was
    appended to the results. *)
Theorem predict_and_evaluate_val_empty_df
    (model_path : string) (ds : dataset batch) (w : world) (m : model) :
  w_fs w !! model_path = Some (SavedModel m) ->
  w_fs w !! pred_temp_filename (w_args w) = None \/
  w_fs w !! mask_temp_filename (w_args w) = None ->
  exists w',
    predict_and_evaluate_val model_path [] ds w = (Raise FileNotFoundError, w') /\
    w_results_df w' = w_results_df w /\
    w_trace w' = w_trace w.
Proof.
  intros Hmodel Htemp.
  unfold predict_and_evaluate_val, load_model, os_remove, bind, get_fs, get_args, ret, raise,
    put_fs.
  cbn -[pred_temp_filename mask_temp_filename]. rewrite Hmodel.
  cbn -[pred_temp_filename mask_temp_filename].
  destruct (w_fs w !! pred_temp_filename (w_args w)) as [f |] eqn:Hpred;
    cbn -[pred_temp_filename mask_temp_filename].
  - destruct Htemp as [Hp | Hm]; [discriminate |].
    destruct (decide (pred_temp_filename (w_args w) = mask_temp_filename (w_args w)))
      as [Heq | Hne].
    + rewrite Heq in Hpred. congruence.
    + rewrite lookup_delete_ne by done. rewrite Hm. eexists. repeat split; reflexivity.
  - eexists. repeat split; reflexivity.
Qed.

(** *** An optimizer other than adam *)

Lemma hooks_app (t1 t2 : list event) : hooks (t1 ++ t2) = hooks t1 ++ hooks t2.
Proof. apply omap_app. Qed.

Lemma training_events_no_hooks (tr : list event) : Forall training_event tr -> hooks tr = [].
Proof.
  induction 1 as [| e tr He _ IH]; [reflexivity |].
  unfold hooks in *. destruct e; simpl in *; try contradiction; exact IH.
Qed.

Lemma fold_training_events fuel patch_size fd l :
  preserves (extends_by training_event) (fold_training data_manifest fuel patch_size fd l).
Proof. preserves_auto. Qed.

Lemma train_init_ok w patch_size depth w0 :
  train_init w = (Ok (patch_size, depth), w0) ->
  w0 = World (w_args w) (w_results_df w) [] (w_fs w) (w_trace w) None.
Proof.
  unfold train_init, bind, get_args, put_k_metrics, put_learning_rate, ret. cbn.
  intros Heq. inversion Heq. reflexivity.
Qed.

(** C9.  When the configured optimizer is not adam, [learning_rate] is
    never bound in the first fold: if that fold's training loop runs to
    its end, [train] raises [NameError] in the very state the loop left,
    so nothing but training events has happened - no metrics hook, no
    final save of the fold, no test evaluation. *)
Theorem non_adam_optimizer_raises_name_error
    (fuel : nat) (w : world) (fold : nat) (rest : list nat)
    (patch_size : list nat) (depth : nat) (w0 : world)
    (fd : fold_data) (l0 : fold_locals) (w1 : world) (l1 : fold_locals) (w2 : world) :
  arg_optimizer (w_args w) <> "adam" ->
  arg_folds (w_args w) = fold :: rest ->
  train_init w = (Ok (patch_size, depth), w0) ->
  fold_setup data_manifest splits patch_size depth fold w0 = (Ok (fd, l0), w1) ->
  fold_training data_manifest fuel patch_size fd l0 w1 = (Ok l1, w2) ->
  train data_manifest splits fuel w = (Raise NameError, w2) /\
  exists new, w_trace w2 = w_trace w ++ new /\ Forall training_event new /\ hooks new = [].
Proof.
  intros Hopt Hfolds Hinit Hsetup Htrain.
  pose proof (train_init_ok _ _ _ _ Hinit) as Hw0.
  destruct (fold_setup_ok _ _ _ _ _ _ _ Hsetup) as (s & _ & _ & Hw1 & _).
  pose proof (fold_training_keeps_args fuel patch_size fd l0 w1) as Hargs.
  pose proof (fold_training_keeps_learning_rate fuel patch_size fd l0 w1) as Hlr.
  pose proof (fold_training_events fuel patch_size fd l0 w1) as (new & Hnew & Hev).
  rewrite Htrain in Hargs, Hlr, Hnew. unfold keeps in Hargs, Hlr. simpl in Hargs, Hlr, Hnew.
  split.
  - unfold train. rewrite (bind_ok _ _ _ _ _ Hinit). unfold get_args at 1.
    unfold bind at 1. subst w0. cbn [w_args fst snd]. rewrite Hfolds.
    cbn [for_each]. unfold train_fold at 1.
    erewrite bind_raise; [reflexivity |].
    erewrite bind_raise; [reflexivity |].
    rewrite (bind_ok _ _ _ _ _ Hsetup). cbn [fst snd].
    rewrite (bind_ok _ _ _ _ _ Htrain).
    erewrite bind_raise; [reflexivity |].
    unfold fold_finish, bind, get_args, put_learning_rate, read_learning_rate, ret.
    cbn. rewrite Hargs. subst w1. cbn.
    destruct (String.eqb_spec (arg_optimizer (w_args w)) "adam") as [Heq | _]; [done |].
    cbn in Hlr. rewrite Hlr. reflexivity.
  - exists (EvFoldStart fold :: new). split; [| split].
    + rewrite Hnew. subst w1 w0. cbn. by rewrite <- app_assoc.
    + constructor; [exact I | exact Hev].
    + apply training_events_no_hooks. constructor; [exact I | exact Hev].
Qed.

(** *** The loop body computes the closed forms *)

Lemma add_events_nil w : add_events [] w = w.
Proof. destruct w. unfold add_events. simpl. by rewrite app_nil_r. Qed.

Lemma add_events_app evs1 evs2 w :
  add_events evs2 (add_events evs1 w) = add_events (evs1 ++ evs2) w.
Proof. unfold add_events. simpl. by rewrite app_assoc. Qed.

Lemma for_each_val_step patch_size bs l w :
  for_each (val_step data_manifest patch_size) bs l w
  = (Ok (Locals (l_model l) (l_optimizer l) (l_train_loss l)
           (fold_left (fun acc x => Mean.update_state x acc)
              (val_losses data_manifest (w_args w) patch_size (l_model l) bs) (l_val_loss l))
           (l_checkpoint l) (l_current_epoch l) (l_local_step l)),
     add_events (val_events bs) w).
Proof.
  revert l w. induction bs as [| b bs IH]; intros l w.
  - simpl. unfold ret. rewrite add_events_nil. by destruct l.
  - cbn [for_each]. unfold bind at 1.
    unfold val_step at 1. unfold bind, emit, get_args, ret. cbn.
    rewrite IH. cbn. f_equal.
    unfold add_events. cbn. by rewrite <- app_assoc.
Qed.

Lemma Checkpoints_update_eq ck m c w :
  Checkpoints_update ck m c w
  = (Ok (checkpoint_after ck c),
     add_events (save_events ck m c) (with_fs (fs_after_update ck m c (w_fs w)) w)).
Proof.
  unfold Checkpoints_update, checkpoint_after, fs_after_update, save_events, save_model,
    bind, emit, get_fs, put_fs, ret, add_events, with_fs.
  cbn. destruct (loss_lt c (best_val_loss ck)); cbn.
  - by rewrite <- app_assoc.
  - reflexivity.
Qed.

Lemma validation_round_eq patch_size fd l w :
  validation_round data_manifest patch_size fd l w
  = (Ok (locals_after_validation data_manifest (w_args w) patch_size fd l),
     world_after_validation data_manifest patch_size fd l w).
Proof.
  unfold validation_round. unfold bind at 1. rewrite for_each_val_step.
  unfold bind at 1. unfold emit at 1. cbn [l_val_loss l_model l_checkpoint].
  unfold bind at 1. rewrite Checkpoints_update_eq.
  unfold bind, emit, ret, ProgressBar_reset, locals_after_validation, world_after_validation,
    validation_events, round_loss, add_events, with_fs, val_batches, Mean.reset_states.
  cbn. f_equal. f_equal. rewrite <- !app_assoc. reflexivity.
Qed.

Lemma rgb_to_grayscale_ok t w : is_rgb t -> rgb_to_grayscale t w = (Ok (gray t), w).
Proof. unfold is_rgb, rgb_to_grayscale. intros ->. reflexivity. Qed.

Lemma rgb_to_grayscale_fail t w :
  ~ is_rgb t -> rgb_to_grayscale t w = (Raise (conversion_error t), w).
Proof.
  unfold is_rgb, rgb_to_grayscale, conversion_error. intros Hn.
  destruct (last (shape t)) as [[| [| [| [| n]]]] |]; try reflexivity. by destruct Hn.
Qed.

Lemma gray_single_channel t : single_channel (gray t).
Proof. unfold single_channel, gray. simpl. apply last_snoc. Qed.

Lemma train_iteration_step patch_size fd total_steps g l w image mask s :
  fd_train_loader fd g = Some (image, mask) ->
  is_rgb image -> is_rgb mask ->
  g < total_steps ->
  arg_steps_per_epoch (w_args w) = Some s ->
  s <> 0 ->
  train_iteration data_manifest patch_size fd total_steps g l w
  = iteration_result data_manifest patch_size fd s g image mask l w.
Proof.
  intros Hload Hi Hm Hlt Hs Hs0.
  unfold train_iteration. rewrite Hload.
  rewrite (bind_ok _ _ _ _ _ (rgb_to_grayscale_ok _ _ Hi)).
  rewrite (bind_ok _ _ _ _ _ (rgb_to_grayscale_ok _ _ Hm)).
  destruct (Nat.leb_spec total_steps g) as [Hle | _]; [lia |].
  unfold iteration_result, epoch_boundary, locals_after_train_step.
  unfold bind at 1. unfold train_step, bind at 1, emit at 1, bind at 1, get_args at 1.
  cbn [w_args fst snd].
  destruct (gradient_step (w_args w) (l_model l) (l_optimizer l) (gray image) (gray mask))
    as [[m o] loss].
  unfold ret at 1. cbn [l_model l_optimizer l_train_loss l_val_loss l_checkpoint
                         l_current_epoch l_local_step].
  unfold bind at 1, get_args at 1. cbn [w_args]. rewrite Hs.
  unfold bind at 1, ret at 1. unfold bind at 1.
  destruct s as [| s']; [done |]. unfold py_mod, ret at 1.
  destruct (((g + 1) mod S s' =? 0) && (0 <? g)).
  - unfold bind. rewrite validation_round_eq. reflexivity.
  - reflexivity.
Qed.

Lemma train_iteration_cases patch_size fd total_steps g l w :
  train_iteration data_manifest patch_size fd total_steps g l w = (Ok None, w) \/
  (exists e, train_iteration data_manifest patch_size fd total_steps g l w = (Raise e, w)) \/
  (exists image mask e,
     train_iteration data_manifest patch_size fd total_steps g l w
     = (Raise e, add_events [EvTrainStep g (gray image) (gray mask)] w)) \/
  (exists image mask s,
     fd_train_loader fd g = Some (image, mask) /\ is_rgb image /\ is_rgb mask /\
     g < total_steps /\ arg_steps_per_epoch (w_args w) = Some s /\ s <> 0 /\
     train_iteration data_manifest patch_size fd total_steps g l w
     = iteration_result data_manifest patch_size fd s g image mask l w).
Proof.
  destruct (fd_train_loader fd g) as [[image mask] |] eqn:Hload.
  2: { left. unfold train_iteration. by rewrite Hload. }
  destruct (decide (is_rgb image)) as [Hi | Hi].
  2: { right; left. exists (conversion_error image). unfold train_iteration. rewrite Hload.
       by rewrite (bind_raise _ _ _ _ _ (rgb_to_grayscale_fail _ _ Hi)). }
  destruct (decide (is_rgb mask)) as [Hm | Hm].
  2: { right; left. exists (conversion_error mask). unfold train_iteration. rewrite Hload.
       rewrite (bind_ok _ _ _ _ _ (rgb_to_grayscale_ok _ _ Hi)).
       by rewrite (bind_raise _ _ _ _ _ (rgb_to_grayscale_fail _ _ Hm)). }
  destruct (Nat.leb_spec total_steps g) as [Hle | Hlt].
  { left. unfold train_iteration. rewrite Hload.
    rewrite (bind_ok _ _ _ _ _ (rgb_to_grayscale_ok _ _ Hi)).
    rewrite (bind_ok _ _ _ _ _ (rgb_to_grayscale_ok _ _ Hm)).
    destruct (Nat.leb_spec total_steps g); [reflexivity | lia]. }
  destruct (arg_steps_per_epoch (w_args w)) as [[| s'] |] eqn:Hs.
  - right; right; left. exists image, mask, ZeroDivisionError.
    unfold train_iteration. rewrite Hload.
    rewrite (bind_ok _ _ _ _ _ (rgb_to_grayscale_ok _ _ Hi)).
    rewrite (bind_ok _ _ _ _ _ (rgb_to_grayscale_ok _ _ Hm)).
    destruct (Nat.leb_spec total_steps g); [lia |].
    unfold train_step, bind, emit, get_args, ret, raise, py_mod, add_events. cbn.
    destruct (gradient_step (w_args w) (l_model l) (l_optimizer l) (gray image) (gray mask))
      as [[m o] loss].
    cbn. rewrite Hs. reflexivity.
  - right; right; right. exists image, mask, (S s').
    repeat (split; [done |]). by apply train_iteration_step.
  - right; right; left. exists image, mask, TypeError.
    unfold train_iteration. rewrite Hload.
    rewrite (bind_ok _ _ _ _ _ (rgb_to_grayscale_ok _ _ Hi)).
    rewrite (bind_ok _ _ _ _ _ (rgb_to_grayscale_ok _ _ Hm)).
    destruct (Nat.leb_spec total_steps g); [lia |].
    unfold train_step, bind, emit, get_args, ret, raise, py_mod, add_events. cbn.
    destruct (gradient_step (w_args w) (l_model l) (l_optimizer l) (gray image) (gray mask))
      as [[m o] loss].
    cbn. rewrite Hs. reflexivity.
Qed.

(** An invariant [I] of the loop body, with [R] describing the world an
    aborted or cut-short run leaves, holds of the whole loop. *)
Lemma train_loop_rule (I : fold_locals -> world -> Prop) (R : world -> Prop)
    (patch_size : list nat) (fd : fold_data) (total_steps : nat) :
  (forall g l w, I l w ->
     match train_iteration data_manifest patch_size fd total_steps g l w with
     | (Ok (Some l'), w') => I l' w'
     | (Ok None, w') => I l w'
     | (_, w') => R w'
     end) ->
  (forall l w, I l w -> R w) ->
  forall fuel g l w, I l w ->
    match train_loop data_manifest fuel patch_size fd total_steps g l w with
    | (Ok l', w') => I l' w'
    | (_, w') => R w'
    end.
Proof.
  intros Hbody HIR. induction fuel as [| fuel IH]; intros g l w HI.
  - simpl. unfold out_of_fuel. eapply HIR; eassumption.
  - simpl. unfold bind. specialize (Hbody g l w HI).
    destruct (train_iteration data_manifest patch_size fd total_steps g l w)
      as [[[l' |] | e |] w']; try assumption.
    by apply IH.
Qed.

(** *** The checkpoint tracker *)

Lemma Qltb_lt (x y : Q) : Qltb x y = true <-> (x < y)%Q.
Proof.
  unfold Qltb. rewrite negb_true_iff. split.
  - intros Hb. apply Qnot_le_lt. intros Hle. apply Qle_bool_iff in Hle. congruence.
  - intros Hlt. destruct (Qle_bool y x) eqn:Hb; [| reflexivity].
    apply Qle_bool_iff in Hb. exfalso. by apply (Qlt_not_le x y).
Qed.

Lemma loss_lt_below (c : Q) (best : xloss) : loss_lt c best = true <-> loss_below c best.
Proof. destruct best as [b |]; simpl; [apply Qltb_lt | tauto]. Qed.

Lemma loss_lt_not_below (c : Q) (best : xloss) : loss_lt c best = false <-> ~ loss_below c best.
Proof. rewrite <- loss_lt_below. destruct (loss_lt c best); split; congruence. Qed.

(** C3.  [update] always succeeds and always leaves the snapshot at the
    last path.  When the loss is strictly below the best one it also writes
    the snapshot to the best path and records the loss; otherwise it writes
    nothing but the last path and the tracker is unchanged - in particular
    on a tie.  A fold starts with the best loss at [+inf]. *)
Theorem checkpoints_update_strict (ck : Checkpoints) (m : model) (c : Q) (w : world) :
  exists ck' w',
    Checkpoints_update ck m c w = (Ok ck', w') /\
    w_fs w' !! last_model_path ck = Some (SavedModel m) /\
    (loss_below c (best_val_loss ck) ->
       w_trace w' = w_trace w ++ [EvSave (last_model_path ck) m; EvSave (best_model_path ck) m] /\
       w_fs w' !! best_model_path ck = Some (SavedModel m) /\
       ck' = {| best_model_path := best_model_path ck;
                last_model_path := last_model_path ck;
                best_val_loss := Finite c |}) /\
    (~ loss_below c (best_val_loss ck) ->
       w_trace w' = w_trace w ++ [EvSave (last_model_path ck) m] /\
       w_fs w' = <[last_model_path ck := SavedModel m]> (w_fs w) /\
       ck' = ck) /\
    (forall b, best_val_loss ck = Finite b -> (c == b)%Q ->
       w_trace w' = w_trace w ++ [EvSave (last_model_path ck) m] /\ ck' = ck) /\
    (forall patch_size depth fold w0 fd l0 w1,
       fold_setup data_manifest splits patch_size depth fold w0 = (Ok (fd, l0), w1) ->
       best_val_loss (l_checkpoint l0) = Infinity).
Proof.
  eexists _, _. split; [apply Checkpoints_update_eq |].
  unfold checkpoint_after, fs_after_update, save_events, add_events, with_fs. cbn.
  destruct (loss_lt c (best_val_loss ck)) eqn:Hlt.
  - apply loss_lt_below in Hlt.
    split.
    { destruct (decide (best_model_path ck = last_model_path ck)) as [-> | Hne].
      - apply lookup_insert_eq.
      - rewrite lookup_insert_ne by done. apply lookup_insert_eq. }
    split; [intros _; repeat split; apply lookup_insert_eq |].
    split; [intros Hn; by destruct Hn |].
    split.
    + intros b Hb Heq. rewrite Hb in Hlt. simpl in Hlt. rewrite Heq in Hlt.
      by apply Qlt_irrefl in Hlt.
    + intros ps depth fold w0 fd l0 w1 Hsetup.
      destruct (fold_setup_ok _ _ _ _ _ _ _ Hsetup) as (s & _ & _ & _ & ->). reflexivity.
  - apply loss_lt_not_below in Hlt.
    split; [apply lookup_insert_eq |].
    split; [intros Hb; by destruct Hlt |].
    split; [intros _; repeat split |].
    split; [intros b Hb Heq; split; reflexivity |].
    intros ps depth fold w0 fd l0 w1 Hsetup.
    destruct (fold_setup_ok _ _ _ _ _ _ _ Hsetup) as (s & _ & _ & _ & ->). reflexivity.
Qed.

(** *** Grayscale conversion before every training step *)

Lemma preserves_known {A B} (R : relation world) `{!PreOrder R}
    (c : M A) (k : A -> M B) (a : A) :
  (forall w, c w = (Ok a, w)) -> preserves R (k a) -> preserves R (bind c k).
Proof. intros Hc Hk w. unfold bind. rewrite Hc. apply Hk. Qed.

Lemma train_iteration_grayscale patch_size fd total_steps g l :
  preserves (extends_by grayscale_train_event)
    (train_iteration data_manifest patch_size fd total_steps g l).
Proof.
  unfold train_iteration.
  destruct (fd_train_loader fd g) as [[image mask] |]; [| preserves_auto].
  destruct (decide (is_rgb image)) as [Hi | Hi].
  2: { intros w. rewrite (bind_raise _ _ _ _ _ (rgb_to_grayscale_fail _ _ Hi)). reflexivity. }
  apply (preserves_known _ _ _ (gray image)); [intros w; by apply rgb_to_grayscale_ok |].
  destruct (decide (is_rgb mask)) as [Hm | Hm].
  2: { intros w. rewrite (bind_raise _ _ _ _ _ (rgb_to_grayscale_fail _ _ Hm)). reflexivity. }
  apply (preserves_known _ _ _ (gray mask)); [intros w; by apply rgb_to_grayscale_ok |].
  destruct (total_steps <=? g); [preserves_auto |].
  apply preserves_bind; [apply _ | | intros l1; preserves_auto].
  unfold train_step. apply preserves_bind; [apply _ | | intros _; preserves_auto].
  apply extends_by_emit. split; apply gray_single_channel.
Qed.

(** C8.  In every run of [train], whatever its outcome, each call of
    [train_step] receives an image and a mask that went through
    [rgb_to_grayscale] and so have a single channel - whatever the number
    of image channels of the data manifest, with which the model of each
    fold is nevertheless built. *)
Theorem train_step_inputs_are_grayscale (fuel : nat) (w : world) :
  (exists new,
     w_trace (snd (train data_manifest splits fuel w)) = w_trace w ++ new /\
     Forall grayscale_train_event new) /\
  (forall patch_size depth fold w0 fd l0 w1,
     fold_setup data_manifest splits patch_size depth fold w0 = (Ok (fd, l0), w1) ->
     l_model l0 = get_model (w_args w1) patch_size (length (data_images data_manifest))
                    (n_classes data_manifest) depth).
Proof.
  split.
  - revert w. change (preserves (extends_by grayscale_train_event)
                        (train data_manifest splits fuel)).
    repeat first [ apply train_iteration_grayscale | progress unfold_run_outer | preserves_step ].
  - intros ps depth fold w0 fd l0 w1 Hsetup.
    destruct (fold_setup_ok _ _ _ _ _ _ _ Hsetup) as (s & _ & _ & -> & ->). reflexivity.
Qed.

(** *** Counting training steps and validation rounds *)

Lemma val_events_train_steps bs : train_steps (val_events bs) = [].
Proof. induction bs as [| b bs IH]; [reflexivity | exact IH]. Qed.

Lemma val_events_rounds bs : validation_rounds (val_events bs) = [].
Proof. induction bs as [| b bs IH]; [reflexivity | exact IH]. Qed.

Lemma val_events_val_steps bs : val_steps (val_events bs) = bs.
Proof.
  induction bs as [| [i m] bs IH]; [reflexivity |].
  unfold val_steps, val_events in *. cbn. by rewrite IH.
Qed.

Lemma validation_events_train_steps a patch_size fd l :
  train_steps (validation_events data_manifest a patch_size fd l) = [].
Proof.
  unfold validation_events, train_steps.
  rewrite omap_app. cbn. rewrite omap_app. cbn.
  change (omap train_step_of (val_events (val_batches fd)))
    with (train_steps (val_events (val_batches fd))).
  rewrite val_events_train_steps. unfold save_events.
  destruct (loss_lt _ _); reflexivity.
Qed.

Lemma validation_events_rounds a patch_size fd l :
  validation_rounds (validation_events data_manifest a patch_size fd l)
  = [(l_model l, round_loss data_manifest a patch_size fd l)].
Proof.
  unfold validation_events, validation_rounds.
  rewrite omap_app. cbn. rewrite omap_app. cbn.
  change (omap round_of (val_events (val_batches fd)))
    with (validation_rounds (val_events (val_batches fd))).
  rewrite val_events_rounds. unfold save_events.
  destruct (loss_lt _ _); reflexivity.
Qed.

Lemma validation_events_val_steps a patch_size fd l :
  val_steps (validation_events data_manifest a patch_size fd l) = val_batches fd.
Proof.
  unfold validation_events, val_steps.
  rewrite omap_app. cbn. rewrite omap_app. cbn.
  change (omap val_step_of (val_events (val_batches fd)))
    with (val_steps (val_events (val_batches fd))).
  rewrite val_events_val_steps. unfold save_events.
  destruct (loss_lt _ _); cbn; by rewrite app_nil_r.
Qed.

Lemma train_iteration_stop patch_size fd total_steps l w :
  fd_train_loader fd total_steps = None \/ yields_rgb fd total_steps ->
  train_iteration data_manifest patch_size fd total_steps total_steps l w = (Ok None, w).
Proof.
  intros [Hnone | (image & mask & Hload & Hi & Hm)]; unfold train_iteration.
  - by rewrite Hnone.
  - rewrite Hload.
    rewrite (bind_ok _ _ _ _ _ (rgb_to_grayscale_ok _ _ Hi)).
    rewrite (bind_ok _ _ _ _ _ (rgb_to_grayscale_ok _ _ Hm)).
    by rewrite Nat.leb_refl.
Qed.

Lemma train_loop_budget patch_size fd total_steps s :
  (fd_train_loader fd total_steps = None \/ yields_rgb fd total_steps) ->
  forall n g l w fuel,
    g + n = total_steps ->
    n < fuel ->
    arg_steps_per_epoch (w_args w) = Some s ->
    s <> 0 \/ n = 0 ->
    (forall i, g <= i < total_steps -> yields_rgb fd i) ->
    exists l' w' new,
      train_loop data_manifest fuel patch_size fd total_steps g l w = (Ok l', w') /\
      w_args w' = w_args w /\
      w_trace w' = w_trace w ++ new /\
      train_steps new = seq g n /\
      length (validation_rounds new) = boundary_count s g n /\
      val_steps new = concat (replicate (boundary_count s g n) (val_batches fd)).
Proof.
  intros Hend. induction n as [| n IH]; intros g l w fuel Hg Hfuel Hs Hs0 Hyield.
  - destruct fuel as [| fuel]; [lia |].
    assert (g = total_steps) as -> by lia.
    exists l, w, []. cbn [train_loop].
    rewrite (bind_ok _ _ _ _ _ (train_iteration_stop patch_size fd total_steps l w Hend)).
    rewrite app_nil_r. done.
  - destruct fuel as [| fuel]; [lia |].
    destruct Hs0 as [Hs0 | ?]; [| lia].
    destruct (Hyield g ltac:(lia)) as (image & mask & Hload & Hi & Hm).
    cbn [train_loop]. unfold bind at 1.
    rewrite (train_iteration_step patch_size fd total_steps g l w image mask s)
      by (done || lia).
    unfold iteration_result. cbn [boundary_count].
    set (l1 := locals_after_train_step (w_args w) (gray image) (gray mask) l).
    destruct (epoch_boundary s g).
    + destruct (IH (S g) (locals_after_validation data_manifest (w_args w) patch_size fd l1)
                  (world_after_validation data_manifest patch_size fd l1
                     (add_events [EvTrainStep g (gray image) (gray mask)] w)) fuel)
        as (l' & w' & new & Hrun & Hargs & Htr & Hsteps & Hrounds & Hval);
        [lia | lia | exact Hs | by left | intros i Hi'; apply Hyield; lia |].
      exists l', w',
        (EvTrainStep g (gray image) (gray mask)
         :: validation_events data_manifest (w_args w) patch_size fd l1 ++ new).
      split; [exact Hrun |]. split; [exact Hargs |].
      split; [rewrite Htr; cbn; by rewrite <- !app_assoc |].
      split; [| split].
      * unfold train_steps in *. cbn. rewrite omap_app.
        change (omap train_step_of (validation_events data_manifest (w_args w) patch_size fd l1))
          with (train_steps (validation_events data_manifest (w_args w) patch_size fd l1)).
        rewrite validation_events_train_steps. cbn. by rewrite Hsteps.
      * unfold validation_rounds in *. cbn. rewrite omap_app, length_app.
        change (omap round_of (validation_events data_manifest (w_args w) patch_size fd l1))
          with (validation_rounds (validation_events data_manifest (w_args w) patch_size fd l1)).
        rewrite validation_events_rounds. cbn. by rewrite Hrounds.
      * unfold val_steps in *. cbn. rewrite omap_app.
        change (omap val_step_of (validation_events data_manifest (w_args w) patch_size fd l1))
          with (val_steps (validation_events data_manifest (w_args w) patch_size fd l1)).
        rewrite validation_events_val_steps. by rewrite Hval.
    + destruct (IH (S g) l1 (add_events [EvTrainStep g (gray image) (gray mask)] w) fuel)
        as (l' & w' & new & Hrun & Hargs & Htr & Hsteps & Hrounds & Hval);
        [lia | lia | exact Hs | by left | intros i Hi'; apply Hyield; lia |].
      exists l', w', (EvTrainStep g (gray image) (gray mask) :: new).
      split; [exact Hrun |]. split; [exact Hargs |].
      split; [rewrite Htr; cbn; by rewrite <- !app_assoc |].
      split; [| split].
      * unfold train_steps in *. cbn. by rewrite Hsteps.
      * unfold validation_rounds in *. cbn. by rewrite Hrounds.
      * unfold val_steps in *. cbn. by rewrite Hval.
Qed.

Lemma boundary_count_app s g n m :
  boundary_count s g (n + m) = boundary_count s g n + boundary_count s (g + n) m.
Proof.
  revert g. induction n as [| n IH]; intros g; cbn [boundary_count Nat.add].
  - by rewrite Nat.add_0_r.
  - rewrite IH. replace (S g + n) with (g + S n) by lia. lia.
Qed.

(** One epoch's worth of steps holds one boundary, the last step, unless
    that step is global step 0. *)
Lemma boundary_count_block s e :
  forall k j, j + k = s ->
    boundary_count s (e * s + j) k
    = if k =? 0 then 0 else if e * s + s - 1 =? 0 then 0 else 1.
Proof.
  induction k as [| k IH]; intros j Hjk; [reflexivity |].
  cbn [boundary_count]. replace (S (e * s + j)) with (e * s + S j) by lia.
  rewrite (IH (S j)) by lia. unfold epoch_boundary.
  replace (e * s + j + 1) with (S j + e * s) by lia.
  rewrite Nat.Div0.mod_add.
  destruct k as [| k]; cbn [Nat.eqb].
  - assert (S j = s) as Hs by lia. rewrite Hs, Nat.Div0.mod_same. cbn [Nat.eqb andb].
    replace (e * s + s - 1) with (e * s + j) by lia.
    destruct (e * s + j) as [| x]; reflexivity.
  - rewrite Nat.mod_small by lia. cbn [Nat.eqb andb]. reflexivity.
Qed.

Lemma boundary_count_epochs epochs s :
  boundary_count s 0 (epochs * s) = validation_round_count epochs s.
Proof.
  destruct s as [| [| s]].
  - by rewrite Nat.mul_0_r.
  - cbn [validation_round_count]. induction epochs as [| e IH]; [reflexivity |].
    replace (S e * 1) with (e * 1 + 1) by lia.
    rewrite boundary_count_app, IH. cbn [Nat.add].
    pose proof (boundary_count_block 1 e 1 0 eq_refl) as Hb.
    rewrite Nat.add_0_r in Hb. rewrite Hb. cbn [Nat.eqb].
    replace (e * 1 + 1 - 1) with e by lia.
    destruct e as [| e]; cbn [Nat.eqb]; lia.
  - cbn [validation_round_count]. induction epochs as [| e IH]; [reflexivity |].
    replace (S e * S (S s)) with (e * S (S s) + S (S s)) by lia.
    rewrite boundary_count_app, IH. cbn [Nat.add].
    pose proof (boundary_count_block (S (S s)) e (S (S s)) 0 eq_refl) as Hb.
    rewrite Nat.add_0_r in Hb. rewrite Hb. cbn [Nat.eqb].
    replace (e * S (S s) + S (S s) - 1) with (S (e * S (S s) + s)) by lia.
    cbn [Nat.eqb]. lia.
Qed.

Lemma ds_take_from_length {A} (ds : dataset A) (n start : nat) :
  (forall i, i < n -> is_Some (ds (start + i))) -> length (ds_take_from ds start n) = n.
Proof.
  revert start. induction n as [| n IH]; intros start Hsome; [reflexivity |].
  cbn [ds_take_from]. destruct (Hsome 0 ltac:(lia)) as [x Hx].
  rewrite Nat.add_0_r in Hx. rewrite Hx. cbn [length]. f_equal. apply IH.
  intros i Hi. replace (S start + i) with (start + S i) by lia. apply Hsome. lia.
Qed.

(** C1, amended.  Started with [s] steps per epoch, [E] epochs and an
    iterator that yields at least [E * s] RGB items (and after those
    anything: nothing, or more RGB items), the training loop of a fold ends
    normally after exactly the training steps [0 .. E*s - 1], none at or
    beyond the budget.  It runs one validation round per epoch, each over
    the whole validation set, except that the round of global step 0 is
    skipped: [E] rounds when [s >= 2], [E - 1] when [s = 1], none when
    [s = 0]. *)
Theorem fold_training_step_budget
    (fuel : nat) (patch_size : list nat) (fd : fold_data) (l : fold_locals) (w : world)
    (s : nat) :
  arg_steps_per_epoch (w_args w) = Some s ->
  arg_epochs (w_args w) * s < fuel ->
  (forall i, i < arg_epochs (w_args w) * s -> yields_rgb fd i) ->
  (fd_train_loader fd (arg_epochs (w_args w) * s) = None \/
   yields_rgb fd (arg_epochs (w_args w) * s)) ->
  exists l' w' new,
    fold_training data_manifest fuel patch_size fd l w = (Ok l', w') /\
    w_trace w' = w_trace w ++ new /\
    train_steps new = seq 0 (arg_epochs (w_args w) * s) /\
    Forall (fun g => g < arg_epochs (w_args w) * s) (train_steps new) /\
    length (validation_rounds new) = validation_round_count (arg_epochs (w_args w)) s /\
    val_steps new
    = concat (replicate (validation_round_count (arg_epochs (w_args w)) s) (val_batches fd)) /\
    ((forall i, i < length (fd_val_images fd) -> is_Some (fd_val_loader fd i)) ->
     length (val_batches fd) = length (fd_val_images fd)).
Proof.
  intros Hs Hfuel Hyield Hend.
  destruct (train_loop_budget patch_size fd (arg_epochs (w_args w) * s) s Hend
              (arg_epochs (w_args w) * s) 0 l w fuel)
    as (l' & w' & new & Hrun & _ & Htr & Hsteps & Hrounds & Hval).
  { lia. }
  { exact Hfuel. }
  { exact Hs. }
  { destruct s; [right; lia | left; lia]. }
  { intros i Hi. apply Hyield. lia. }
  exists l', w', new.
  split.
  { unfold fold_training, bind, get_args, ret. cbn. rewrite Hs. exact Hrun. }
  split; [exact Htr |]. split; [exact Hsteps |].
  split.
  { rewrite Hsteps. apply Forall_forall. intros g Hg.
    apply list_elem_of_In, in_seq in Hg. lia. }
  rewrite boundary_count_epochs in Hrounds, Hval.
  split; [exact Hrounds |]. split; [exact Hval |].
  intros Hvalset. unfold val_batches, ds_take. by apply ds_take_from_length.
Qed.

(** *** The validation loss of a round *)






(** *** Paths of the two slots *)

Lemma list_ascii_of_string_app (s1 s2 : string) :
  String.list_ascii_of_string (s1 +:+ s2) = String.list_ascii_of_string s1 ++ String.list_ascii_of_string s2.
Proof.
  induction s1 as [| c s1 IH]; [reflexivity |].
  change (String c s1 +:+ s2) with (String c (s1 +:+ s2)). cbn. by rewrite IH.
Qed.

Lemma string_app_assoc (s1 s2 s3 : string) : (s1 +:+ s2) +:+ s3 = s1 +:+ s2 +:+ s3.
Proof.
  induction s1 as [| c s1 IH]; [reflexivity |].
  change ((String c s1 +:+ s2) +:+ s3) with (String c ((s1 +:+ s2) +:+ s3)).
  by rewrite IH.
Qed.

Lemma path_join2_suffix (a b : string) : exists p, path_join2 a b = p +:+ b.
Proof.
  unfold path_join2. destruct (starts_with_sep b).
  - by exists "".
  - destruct (if String.eqb a "" then true else ends_with_sep a).
    + by exists a.
    + exists (a +:+ "/"). by rewrite string_app_assoc.
Qed.

Lemma path_join_last (a : string) (ps : list string) (x : string) :
  exists p, path_join a (ps ++ [x]) = p +:+ x.
Proof. unfold path_join. rewrite fold_left_app. cbn. apply path_join2_suffix. Qed.

Lemma best_path_not_last_path (a : Args) (fold : nat) :
  fold_best_model_path data_manifest a fold <> fold_last_model_path data_manifest a fold.
Proof.
  unfold fold_best_model_path, fold_last_model_path.
  destruct (path_join_last (arg_results a) ["models"; "best"]
              (data_task data_manifest +:+ "_best_model_split_" +:+ pretty fold)) as [p Hp].
  destruct (path_join_last (arg_results a) ["models"; "last"]
              (data_task data_manifest +:+ "_last_model_split_" +:+ pretty fold)) as [q Hq].
  cbn [app] in Hp, Hq. rewrite Hp, Hq. clear Hp Hq.
  intros Heq. apply (f_equal String.list_ascii_of_string) in Heq.
  rewrite !list_ascii_of_string_app in Heq.
  rewrite !(app_assoc (String.list_ascii_of_string _) (String.list_ascii_of_string (data_task data_manifest)))
    in Heq.
  apply app_inj_2 in Heq as [_ Heq].
  - apply app_inv_tail in Heq. discriminate.
  - rewrite !length_app. reflexivity.
Qed.

Lemma path_not_its_subdirectory (path : string) : path <> path +:+ "/best/".
Proof.
  intros Heq. apply (f_equal String.list_ascii_of_string) in Heq.
  rewrite list_ascii_of_string_app in Heq.
  rewrite <- (app_nil_r (String.list_ascii_of_string path)) in Heq at 1.
  apply app_inv_head in Heq. discriminate.
Qed.

(** *** The best slot *)

Lemma first_minimum_improve (rounds : list (model * Q)) k0 m0 c0 m c :
  first_minimum rounds k0 m0 c0 -> (c < c0)%Q ->
  first_minimum (rounds ++ [(m, c)]) (length rounds) m c.
Proof.
  intros (Hk & Hmin & _) Hlt.
  assert (Hold : forall j mj cj, rounds !! j = Some (mj, cj) -> (c < cj)%Q).
  { intros j mj cj Hj. eapply Qlt_le_trans; [exact Hlt | by eapply Hmin]. }
  split; [| split].
  - rewrite lookup_app_r by lia. by rewrite Nat.sub_diag.
  - intros j mj cj Hj. destruct (decide (j < length rounds)) as [Hlt' | Hge].
    + rewrite lookup_app_l in Hj by done. apply Qlt_le_weak. by eapply Hold.
    + rewrite lookup_app_r in Hj by lia.
      destruct (j - length rounds) as [| x]; [| by destruct x].
      cbn in Hj. injection Hj as <- <-. apply Qle_refl.
  - intros j mj cj Hj Hlook. rewrite lookup_app_l in Hlook by done. by eapply Hold.
Qed.

Lemma first_minimum_keep (rounds : list (model * Q)) k0 m0 c0 m c :
  first_minimum rounds k0 m0 c0 -> ~ (c < c0)%Q ->
  first_minimum (rounds ++ [(m, c)]) k0 m0 c0.
Proof.
  intros (Hk & Hmin & Hfirst) Hnlt.
  assert (Hk0 : k0 < length rounds) by (by eapply lookup_lt_Some).
  split; [| split].
  - by rewrite lookup_app_l.
  - intros j mj cj Hj. destruct (decide (j < length rounds)) as [Hlt' | Hge].
    + rewrite lookup_app_l in Hj by done. by eapply Hmin.
    + rewrite lookup_app_r in Hj by lia.
      destruct (j - length rounds) as [| x]; [| by destruct x].
      cbn in Hj. injection Hj as <- <-. by apply Qnot_lt_le.
  - intros j mj cj Hj Hlook. rewrite lookup_app_l in Hlook by lia. by eapply Hfirst.
Qed.

Lemma first_minimum_single (m : model) (c : Q) : first_minimum [(m, c)] 0 m c.
Proof.
  split; [reflexivity | split].
  - intros [| j] mj cj Hj; [| by destruct j]. cbn in Hj. injection Hj as <- <-. apply Qle_refl.
  - intros j mj cj Hj. lia.
Qed.

Lemma best_state_update (ck : Checkpoints) (prev : option file) (fs : gmap string file)
    (rounds : list (model * Q)) (m : model) (c : Q) :
  best_model_path ck <> last_model_path ck ->
  best_state (best_model_path ck) prev (best_val_loss ck) fs rounds ->
  best_state (best_model_path ck) prev (best_val_loss (checkpoint_after ck c))
    (fs_after_update ck m c fs) (rounds ++ [(m, c)]).
Proof.
  intros Hne Hst. right. unfold checkpoint_after, fs_after_update.
  destruct (loss_lt c (best_val_loss ck)) eqn:Hlt.
  - apply loss_lt_below in Hlt.
    destruct Hst as [(-> & _ & _) | (k0 & m0 & c0 & Hb & _ & Hmin)].
    + exists 0, m, c. cbn. repeat split; [apply lookup_insert_eq | apply first_minimum_single..].
    + rewrite Hb in Hlt. cbn in Hlt.
      exists (length rounds), m, c. cbn.
      split; [reflexivity |]. split; [apply lookup_insert_eq |].
      by eapply first_minimum_improve.
  - apply loss_lt_not_below in Hlt.
    destruct Hst as [(_ & Hb & _) | (k0 & m0 & c0 & Hb & Hfs & Hmin)].
    + rewrite Hb in Hlt. by destruct Hlt.
    + rewrite Hb in Hlt. cbn in Hlt.
      exists k0, m0, c0. split; [exact Hb |].
      split; [by rewrite lookup_insert_ne | by apply first_minimum_keep].
Qed.

Lemma locals_after_train_step_checkpoint a image mask l :
  l_checkpoint (locals_after_train_step a image mask l) = l_checkpoint l.
Proof.
  unfold locals_after_train_step.
  by destruct (gradient_step a (l_model l) (l_optimizer l) image mask) as [[m o] loss].
Qed.

Lemma checkpoint_after_paths ck c :
  best_model_path (checkpoint_after ck c) = best_model_path ck /\
  last_model_path (checkpoint_after ck c) = last_model_path ck.
Proof. unfold checkpoint_after. by destruct (loss_lt c (best_val_loss ck)). Qed.

Lemma validation_rounds_app (t1 t2 : list event) :
  validation_rounds (t1 ++ t2) = validation_rounds t1 ++ validation_rounds t2.
Proof. apply omap_app. Qed.

Lemma train_loop_best_invariant (w0 : world) (prev : option file) (best_path last_path : string)
    patch_size fd total_steps fuel g l w l' w' :
  best_path <> last_path ->
  best_invariant w0 prev best_path last_path l w ->
  train_loop data_manifest fuel patch_size fd total_steps g l w = (Ok l', w') ->
  best_invariant w0 prev best_path last_path l' w'.
Proof.
  intros Hne HI Hrun.
  pose proof (train_loop_rule (best_invariant w0 prev best_path last_path) (fun _ => True)
                patch_size fd total_steps) as Hrule.
  specialize (Hrule) with (fuel := fuel) (g := g) (l := l) (w := w).
  rewrite Hrun in Hrule. apply Hrule; [| done | exact HI].
  clear - Hne. intros g l w (Hbp & Hlp & new & Htr & Hst).
  destruct (train_iteration_cases patch_size fd total_steps g l w)
    as [-> | [[e ->] | [(image & mask & e & ->) | (image & mask & s & _ & _ & _ & _ & _ & _ & ->)]]];
    [by repeat split; eauto | done | done |].
  unfold iteration_result.
  set (l1 := locals_after_train_step (w_args w) (gray image) (gray mask) l).
  assert (Hck : l_checkpoint l1 = l_checkpoint l)
    by apply locals_after_train_step_checkpoint.
  destruct (epoch_boundary s g).
  - unfold best_invariant, locals_after_validation, world_after_validation.
    cbn [l_checkpoint w_fs w_trace add_events with_fs w_args].
    destruct (checkpoint_after_paths (l_checkpoint l1)
                (round_loss data_manifest (w_args w) patch_size fd l1)) as [-> ->].
    rewrite Hck. split; [exact Hbp |]. split; [exact Hlp |].
    exists (new ++ EvTrainStep g (gray image) (gray mask)
                   :: validation_events data_manifest (w_args w) patch_size fd l1).
    split.
    + rewrite Htr, <- !app_assoc. reflexivity.
    + rewrite validation_rounds_app.
      change (validation_rounds (EvTrainStep g (gray image) (gray mask)
                :: validation_events data_manifest (w_args w) patch_size fd l1))
        with (validation_rounds (validation_events data_manifest (w_args w) patch_size fd l1)).
      rewrite validation_events_rounds. rewrite <- Hck, <- Hbp.
      rewrite <- Hck. apply best_state_update.
      * rewrite Hck, Hbp, Hlp. exact Hne.
      * rewrite Hck, Hbp. exact Hst.
  - unfold best_invariant. rewrite Hck. split; [exact Hbp |]. split; [exact Hlp |].
    exists (new ++ [EvTrainStep g (gray image) (gray mask)]). split.
    + cbn. rewrite Htr, <- !app_assoc. reflexivity.
    + rewrite validation_rounds_app. cbn. rewrite app_nil_r. exact Hst.
Qed.


(** *** The metrics hooks *)

Lemma bind_ok_inv {A B} (c : M A) (k : A -> M B) (w w' : world) (b : B) :
  bind c k w = (Ok b, w') -> exists a w1, c w = (Ok a, w1) /\ k a w1 = (Ok b, w').
Proof.
  unfold bind. destruct (c w) as [[a | e |] w1]; [eauto | discriminate..].
Qed.

Lemma fold_finish_ok l w w' :
  fold_finish l w = (Ok tt, w') ->
  exists v lr p m,
    w_trace w' = w_trace w ++ [EvOnEpochEnd v lr; EvSave p m] /\
    w_k_metrics w' = w_k_metrics w ++ [(v, lr)].
Proof.
  unfold fold_finish, bind, get_args, put_learning_rate, read_learning_rate, on_epoch_end,
    Checkpoints_save_last_model, save_model, emit, get_k_metrics, put_k_metrics, get_fs,
    put_fs, ret.
  cbn. destruct (String.eqb (arg_optimizer (w_args w)) "adam"); cbn.
  - intros [= <-]. cbn. rewrite <- app_assoc. eauto 10.
  - destruct (w_learning_rate w); cbn; [| discriminate].
    intros [= <-]. cbn. rewrite <- app_assoc. eauto 10.
Qed.

Lemma predict_and_evaluate_val_events model_path df ds :
  preserves (extends_by test_event) (predict_and_evaluate_val model_path df ds).
Proof. preserves_auto. Qed.

Lemma predict_and_evaluate_val_keeps_k_metrics model_path df ds :
  preserves (keeps w_k_metrics) (predict_and_evaluate_val model_path df ds).
Proof. preserves_auto. Qed.

Lemma fold_training_keeps_k_metrics fuel patch_size fd l :
  preserves (keeps w_k_metrics) (fold_training data_manifest fuel patch_size fd l).
Proof. preserves_auto. Qed.

Lemma train_fold_ok fuel patch_size depth fold w w' :
  train_fold data_manifest splits fuel patch_size depth fold tt w = (Ok tt, w') ->
  exists tr row,
    w_trace w' = w_trace w ++ tr /\ fold_trace fold tr /\
    w_k_metrics w' = w_k_metrics w ++ [row].
Proof.
  unfold train_fold. intros Hrun.
  apply bind_ok_inv in Hrun as ([fd l0] & w1 & Hsetup & Hrun). cbn [fst snd] in Hrun.
  apply bind_ok_inv in Hrun as (l1 & w2 & Htrain & Hrun).
  apply bind_ok_inv in Hrun as ([] & w3 & Hfinish & Hrun).
  unfold fold_test_eval in Hrun.
  apply bind_ok_inv in Hrun as ([] & w4 & Htest & Hrun).
  destruct (fold_setup_ok _ _ _ _ _ _ _ Hsetup) as (s & _ & _ & Hw1 & _).
  pose proof (fold_training_events fuel patch_size fd l0 w1) as (training & Htr2 & Htraining).
  pose proof (fold_training_keeps_k_metrics fuel patch_size fd l0 w1) as Hk2.
  rewrite Htrain in Htr2, Hk2. cbn [snd] in Htr2. unfold keeps in Hk2. cbn [snd] in Hk2.
  destruct (fold_finish_ok _ _ _ Hfinish) as (v & lr & p & m & Htr3 & Hk3).
  pose proof (predict_and_evaluate_val_events (best_model_path (l_checkpoint l1))
                (fd_test_df fd) (fd_test_loader fd) w3) as (testing & Htr4 & Htesting).
  pose proof (predict_and_evaluate_val_keeps_k_metrics (best_model_path (l_checkpoint l1))
                (fd_test_df fd) (fd_test_loader fd) w3) as Hk4.
  rewrite Htest in Htr4, Hk4. cbn [snd] in Htr4. unfold keeps in Hk4. cbn [snd] in Hk4.
  unfold on_kFold_end, emit in Hrun. injection Hrun as <-.
  exists (EvFoldStart fold :: training
          ++ [EvOnEpochEnd v lr; EvSave p m] ++ testing ++ [EvOnKFoldEnd]), (v, lr).
  cbn [w_trace w_k_metrics]. split; [| split].
  - rewrite Htr4, Htr3, Htr2, Hw1. cbn [w_trace]. rewrite <- !app_assoc. reflexivity.
  - exists training, v, lr, p, m, testing. done.
  - rewrite Hk4, Hk3, Hk2, Hw1. reflexivity.
Qed.

Lemma for_each_train_fold_ok fuel patch_size depth folds w w' :
  for_each (train_fold data_manifest splits fuel patch_size depth) folds tt w = (Ok tt, w') ->
  exists trs rows,
    w_trace w' = w_trace w ++ concat trs /\ Forall2 fold_trace folds trs /\
    w_k_metrics w' = w_k_metrics w ++ rows /\ length rows = length folds.
Proof.
  revert w. induction folds as [| fold folds IH]; intros w Hrun.
  - injection Hrun as <-. exists [], []. cbn. rewrite !app_nil_r. done.
  - cbn [for_each] in Hrun. apply bind_ok_inv in Hrun as ([] & w1 & Hfold & Hrest).
    destruct (train_fold_ok _ _ _ _ _ _ Hfold) as (tr & row & Htr & Hshape & Hk).
    destruct (IH _ Hrest) as (trs & rows & Htrs & Hshapes & Hks & Hlen).
    exists (tr :: trs), (row :: rows). cbn [concat length].
    split; [rewrite Htrs, Htr; by rewrite <- app_assoc |].
    split; [by constructor |].
    split; [rewrite Hks, Hk; by rewrite <- app_assoc | by rewrite Hlen].
Qed.

Lemma fold_trace_hooks fold tr : fold_trace fold tr -> hooks tr = [HookEpochEnd; HookKFoldEnd].
Proof.
  intros (training & v & lr & p & m & testing & -> & Htraining & Htesting).
  change (EvFoldStart fold :: training ++ [EvOnEpochEnd v lr; EvSave p m] ++ testing
          ++ [EvOnKFoldEnd])
    with ([EvFoldStart fold] ++ training ++ [EvOnEpochEnd v lr; EvSave p m] ++ testing
          ++ [EvOnKFoldEnd]).
  rewrite !hooks_app. rewrite (training_events_no_hooks training Htraining).
  assert (hooks testing = []) as ->.
  { clear -Htesting. induction Htesting as [| e tr He _ IH]; [reflexivity |].
    unfold hooks in *. destruct e; cbn in *; try contradiction; exact IH. }
  reflexivity.
Qed.

(** C5, amended.  In a run of [train] that ends normally, the trace is
    one block per requested fold, in order, followed by [on_training_end]
    once.  In the block of a fold, [on_epoch_end] fires exactly once, after
    the whole training loop of the fold (not once per epoch), and
    [on_kFold_end] fires exactly once, after the test evaluation.  The log
    of the aggregator gains one row per fold. *)
Theorem hooks_fire_once_per_fold (fuel : nat) (w w' : world) :
  train data_manifest splits fuel w = (Ok tt, w') ->
  exists trs,
    w_trace w' = w_trace w ++ concat trs ++ [EvOnTrainingEnd] /\
    Forall2 fold_trace (arg_folds (w_args w)) trs /\
    hooks (concat trs ++ [EvOnTrainingEnd])
    = concat (map (fun _ => [HookEpochEnd; HookKFoldEnd]) (arg_folds (w_args w)))
      ++ [HookTrainingEnd] /\
    length (w_k_metrics w') = length (arg_folds (w_args w)).
Proof.
  unfold train. intros Hrun.
  apply bind_ok_inv in Hrun as ([ps depth] & w0 & Hinit & Hrun).
  apply bind_ok_inv in Hrun as (a & w0' & Hargs & Hrun).
  unfold get_args in Hargs. injection Hargs as <- <-.
  apply bind_ok_inv in Hrun as ([] & w1 & Hfolds & Hrun).
  unfold on_training_end, emit in Hrun. injection Hrun as <-.
  pose proof (train_init_ok _ _ _ _ Hinit) as Hw0.
  assert (Ha : w_args w0 = w_args w) by (by subst w0).
  rewrite Ha in Hfolds. cbn [fst snd] in Hfolds.
  destruct (for_each_train_fold_ok _ _ _ _ _ _ Hfolds)
    as (trs & rows & Htrs & Hshapes & Hks & Hlen).
  exists trs. cbn [w_trace w_k_metrics].
  split; [| split; [exact Hshapes | split]].
  - rewrite Htrs. subst w0. cbn [w_trace]. by rewrite <- app_assoc.
  - rewrite hooks_app. f_equal.
    clear -Hshapes. induction Hshapes as [| fold tr folds trs Hshape _ IH]; [reflexivity |].
    cbn [concat map]. rewrite hooks_app, IH. by rewrite (fold_trace_hooks _ _ Hshape).
  - rewrite Hks. subst w0. cbn [w_k_metrics]. exact Hlen.
Qed.

(** *** What a fold inherits from the folds before it *)
















Lemma set_steps_per_epoch_same (a : Args) (s : nat) :
  arg_steps_per_epoch a = Some s -> set_steps_per_epoch (Some s) a = a.
Proof. destruct a. cbn. by intros ->. Qed.


Lemma fold_rest_keeps_args fuel patch_size (fdl : fold_data * fold_locals) :
  preserves (keeps w_args)
    (bind (fold_training data_manifest fuel patch_size (fst fdl) (snd fdl))
       (fun l => bind (fold_finish l) (fun _ => fold_test_eval (fst fdl) l))).
Proof. preserves_auto. Qed.


(** *** The loop on arbitrary iterators *)

Lemma train_loop_ends patch_size fd total_steps :
  forall fuel g l w,
    total_steps - g < fuel ->
    fst (train_loop data_manifest fuel patch_size fd total_steps g l w) <> OutOfFuel.
Proof.
  induction fuel as [| fuel IH]; intros g l w Hfuel; [lia |].
  cbn [train_loop]. unfold bind.
  destruct (train_iteration_cases patch_size fd total_steps g l w)
    as [-> | [[e ->] | [(image & mask & e & ->) | (image & mask & s & _ & _ & _ & Hlt & _ & _ & ->)]]];
    try (cbn; discriminate).
  unfold iteration_result. destruct (epoch_boundary s g); apply IH; lia.
Qed.

Lemma gradient_steps_cons a image mask l bs :
  gradient_steps a ((image, mask) :: bs) (l_model l, l_optimizer l)
  = gradient_steps a bs
      (l_model (locals_after_train_step a (gray image) (gray mask) l),
       l_optimizer (locals_after_train_step a (gray image) (gray mask) l)).
Proof.
  unfold gradient_steps, locals_after_train_step. cbn [fold_left fst snd].
  by destruct (gradient_step a (l_model l) (l_optimizer l) (gray image) (gray mask))
    as [[m o] loss].
Qed.

(** The loop up to the iteration [stop_at] at which it ends, when that
    iteration leaves the world alone and ends the loop with [stop]. *)
Lemma train_loop_prefix patch_size fd total_steps s stop_at
    (stop : outcome (option fold_locals)) :
  (forall l w,
     train_iteration data_manifest patch_size fd total_steps stop_at l w = (stop, w)) ->
  (forall l', stop <> Ok (Some l')) ->
  stop_at <= total_steps ->
  forall n g l w fuel,
    g + n = stop_at ->
    n < fuel ->
    arg_steps_per_epoch (w_args w) = Some s ->
    s <> 0 \/ n = 0 ->
    (forall i, g <= i < stop_at -> yields_rgb fd i) ->
    exists l' w' new,
      train_loop data_manifest fuel patch_size fd total_steps g l w = (stop_result stop l', w') /\
      w_args w' = w_args w /\
      w_trace w' = w_trace w ++ new /\
      train_steps new = seq g n /\
      length (validation_rounds new) = boundary_count s g n /\
      (l_model l', l_optimizer l')
      = gradient_steps (w_args w) (ds_take_from (fd_train_loader fd) g n)
          (l_model l, l_optimizer l).
Proof.
  intros Hstop Hnot Hle. induction n as [| n IH]; intros g l w fuel Hg Hfuel Hs Hs0 Hyield.
  - destruct fuel as [| fuel]; [lia |].
    assert (g = stop_at) as -> by lia.
    exists l, w, []. cbn [train_loop]. unfold bind. rewrite Hstop.
    rewrite app_nil_r. split; [| done].
    destruct stop as [[l'' |] | e |]; [by destruct (Hnot l'') | reflexivity..].
  - destruct fuel as [| fuel]; [lia |].
    destruct Hs0 as [Hs0 | ?]; [| lia].
    destruct (Hyield g ltac:(lia)) as (image & mask & Hload & Hi & Hm).
    cbn [train_loop ds_take_from]. rewrite Hload. unfold bind at 1.
    rewrite (train_iteration_step patch_size fd total_steps g l w image mask s)
      by (done || lia).
    unfold iteration_result. cbn [boundary_count].
    rewrite gradient_steps_cons.
    set (l1 := locals_after_train_step (w_args w) (gray image) (gray mask) l).
    destruct (epoch_boundary s g).
    + destruct (IH (S g) (locals_after_validation data_manifest (w_args w) patch_size fd l1)
                  (world_after_validation data_manifest patch_size fd l1
                     (add_events [EvTrainStep g (gray image) (gray mask)] w)) fuel)
        as (l' & w' & new & Hrun & Hargs & Htr & Hsteps & Hrounds & Hmodel);
        [lia | lia | exact Hs | by left | intros i Hi'; apply Hyield; lia |].
      exists l', w',
        (EvTrainStep g (gray image) (gray mask)
         :: validation_events data_manifest (w_args w) patch_size fd l1 ++ new).
      split; [exact Hrun |]. split; [exact Hargs |].
      split; [rewrite Htr; cbn; by rewrite <- !app_assoc |].
      split; [| split].
      * unfold train_steps in *. cbn. rewrite omap_app.
        change (omap train_step_of (validation_events data_manifest (w_args w) patch_size fd l1))
          with (train_steps (validation_events data_manifest (w_args w) patch_size fd l1)).
        rewrite validation_events_train_steps. cbn. by rewrite Hsteps.
      * unfold validation_rounds in *. cbn. rewrite omap_app, length_app.
        change (omap round_of (validation_events data_manifest (w_args w) patch_size fd l1))
          with (validation_rounds (validation_events data_manifest (w_args w) patch_size fd l1)).
        rewrite validation_events_rounds. cbn. by rewrite Hrounds.
      * exact Hmodel.
    + destruct (IH (S g) l1 (add_events [EvTrainStep g (gray image) (gray mask)] w) fuel)
        as (l' & w' & new & Hrun & Hargs & Htr & Hsteps & Hrounds & Hmodel);
        [lia | lia | exact Hs | by left | intros i Hi'; apply Hyield; lia |].
      exists l', w', (EvTrainStep g (gray image) (gray mask) :: new).
      split; [exact Hrun |]. split; [exact Hargs |].
      split; [rewrite Htr; cbn; by rewrite <- !app_assoc |].
      split; [| split].
      * unfold train_steps in *. cbn. by rewrite Hsteps.
      * unfold validation_rounds in *. cbn. by rewrite Hrounds.
      * exact Hmodel.
Qed.

Lemma boundary_count_partial s e :
  forall k j, j + k < s -> boundary_count s (e * s + j) k = 0.
Proof.
  induction k as [| k IH]; intros j Hjk; [reflexivity |].
  cbn [boundary_count]. replace (S (e * s + j)) with (e * s + S j) by lia.
  rewrite (IH (S j)) by lia. unfold epoch_boundary.
  replace (e * s + j + 1) with (S j + e * s) by lia.
  rewrite Nat.Div0.mod_add, Nat.mod_small by lia. reflexivity.
Qed.

Lemma boundary_count_no_steps g n : boundary_count 0 g n = 0.
Proof.
  revert g. induction n as [| n IH]; intros g; [reflexivity |].
  cbn [boundary_count]. rewrite IH. unfold epoch_boundary.
  rewrite Nat.add_1_r. reflexivity.
Qed.

Lemma boundary_count_every_step g n : boundary_count 1 (S g) n = n.
Proof.
  revert g. induction n as [| n IH]; intros g; [reflexivity |].
  cbn [boundary_count]. rewrite IH. unfold epoch_boundary.
  rewrite Nat.mod_1_r. reflexivity.
Qed.

Lemma boundary_count_rounds_after s n : boundary_count s 0 n = rounds_after s n.
Proof.
  unfold rounds_after. destruct s as [| [| s]].
  - apply boundary_count_no_steps.
  - cbn [Nat.eqb]. destruct n as [| n]; [reflexivity |].
    cbn [boundary_count]. rewrite boundary_count_every_step. cbn. lia.
  - cbn [Nat.eqb].
    pose proof (Nat.div_mod_eq n (S (S s))) as Hdm.
    pose proof (Nat.mod_upper_bound n (S (S s)) ltac:(lia)) as Hr.
    rewrite Hdm at 1. rewrite (Nat.mul_comm (S (S s))).
    rewrite boundary_count_app, boundary_count_epochs. cbn [Nat.add validation_round_count].
    pose proof (boundary_count_partial (S (S s)) (n / S (S s)) (n mod S (S s)) 0 ltac:(lia))
      as Hp.
    rewrite Nat.add_0_r in Hp. rewrite Hp. lia.
Qed.

Lemma train_iteration_exhausted patch_size fd total_steps g l w :
  fd_train_loader fd g = None ->
  train_iteration data_manifest patch_size fd total_steps g l w = (Ok None, w).
Proof. intros Hnone. unfold train_iteration. by rewrite Hnone. Qed.

Lemma train_iteration_malformed patch_size fd total_steps g l w image mask :
  fd_train_loader fd g = Some (image, mask) ->
  ~ (is_rgb image /\ is_rgb mask) ->
  train_iteration data_manifest patch_size fd total_steps g l w
  = (Raise (batch_conversion_error image mask), w).
Proof.
  intros Hload Hbad. unfold train_iteration, batch_conversion_error. rewrite Hload.
  destruct (decide (is_rgb image)) as [Hi | Hi].
  - rewrite (bind_ok _ _ _ _ _ (rgb_to_grayscale_ok _ _ Hi)).
    destruct (decide (is_rgb mask)) as [Hm | Hm]; [tauto |].
    by rewrite (bind_raise _ _ _ _ _ (rgb_to_grayscale_fail _ _ Hm)).
  - by rewrite (bind_raise _ _ _ _ _ (rgb_to_grayscale_fail _ _ Hi)).
Qed.

Lemma fold_training_unfold fuel patch_size fd l w s :
  arg_steps_per_epoch (w_args w) = Some s ->
  fold_training data_manifest fuel patch_size fd l w
  = train_loop data_manifest fuel patch_size fd (arg_epochs (w_args w) * s) 0 l w.
Proof.
  intros Hs. unfold fold_training, bind, get_args, ret. cbn. by rewrite Hs.
Qed.

(** X1.  Whatever the training iterator yields, and for how long, the
    training loop of a fold ends - normally or with an exception - within
    [epochs * steps_per_epoch + 1] pulls from it. *)
Theorem fold_training_ends
    (fuel : nat) (patch_size : list nat) (fd : fold_data) (l : fold_locals) (w : world) :
  (forall s, arg_steps_per_epoch (w_args w) = Some s -> arg_epochs (w_args w) * s < fuel) ->
  fst (fold_training data_manifest fuel patch_size fd l w) <> OutOfFuel.
Proof.
  intros Hfuel. destruct (arg_steps_per_epoch (w_args w)) as [s |] eqn:Hs.
  - rewrite (fold_training_unfold _ _ _ _ _ s Hs). apply train_loop_ends.
    specialize (Hfuel s eq_refl). lia.
  - unfold fold_training, bind, get_args, raise. cbn. rewrite Hs. cbn. discriminate.
Qed.

(** X2.  When the training iterator runs dry after [n] batches, [n] no
    more than the budget, the training loop ends normally, without any
    error, after the training steps [0 .. n-1]; it has run one validation
    round per completed epoch, less the one of global step 0 when an epoch
    is a single step. *)
Theorem training_ends_when_iterator_runs_dry
    (fuel : nat) (patch_size : list nat) (fd : fold_data) (l : fold_locals) (w : world)
    (s n : nat) :
  arg_steps_per_epoch (w_args w) = Some s ->
  n <= arg_epochs (w_args w) * s ->
  n < fuel ->
  (forall i, i < n -> yields_rgb fd i) ->
  fd_train_loader fd n = None ->
  exists l' w' new,
    fold_training data_manifest fuel patch_size fd l w = (Ok l', w') /\
    w_trace w' = w_trace w ++ new /\
    train_steps new = seq 0 n /\
    length (validation_rounds new) = rounds_after s n.
Proof.
  intros Hs Hn Hfuel Hyield Hnone.
  destruct (train_loop_prefix patch_size fd (arg_epochs (w_args w) * s) s n (Ok None)
              (fun l w => train_iteration_exhausted patch_size fd _ n l w Hnone)
              ltac:(discriminate) Hn n 0 l w fuel)
    as (l' & w' & new & Hrun & _ & Htr & Hsteps & Hrounds & _).
  { lia. }
  { exact Hfuel. }
  { exact Hs. }
  { destruct s; [right; lia | left; lia]. }
  { intros i Hi. apply Hyield. lia. }
  exists l', w', new. rewrite (fold_training_unfold _ _ _ _ _ s Hs).
  rewrite boundary_count_rounds_after in Hrounds. done.
Qed.

(** X3.  A batch whose image or mask is not a 3-channel tensor aborts the
    training loop at the moment it is pulled, with the error of the
    conversion of the first of the two that is not RGB -
    [InvalidArgumentError] for a last axis of another size, [IndexError]
    for a tensor without axes - after exactly the training steps on the
    batches before it; also when it is the batch pulled just after the
    budget is used up, which would never be trained on. *)
Theorem malformed_batch_aborts_training
    (fuel : nat) (patch_size : list nat) (fd : fold_data) (l : fold_locals) (w : world)
    (s n : nat) (image mask : tensor tdata) :
  arg_steps_per_epoch (w_args w) = Some s ->
  n <= arg_epochs (w_args w) * s ->
  n < fuel ->
  (forall i, i < n -> yields_rgb fd i) ->
  fd_train_loader fd n = Some (image, mask) ->
  ~ (is_rgb image /\ is_rgb mask) ->
  exists w' new,
    fold_training data_manifest fuel patch_size fd l w
    = (Raise (batch_conversion_error image mask), w') /\
    w_trace w' = w_trace w ++ new /\
    train_steps new = seq 0 n /\
    length (validation_rounds new) = rounds_after s n.
Proof.
  intros Hs Hn Hfuel Hyield Hload Hbad.
  destruct (train_loop_prefix patch_size fd (arg_epochs (w_args w) * s) s n
              (Raise (batch_conversion_error image mask))
              (fun l w => train_iteration_malformed patch_size fd _ n l w image mask Hload Hbad)
              ltac:(discriminate) Hn n 0 l w fuel)
    as (l' & w' & new & Hrun & _ & Htr & Hsteps & Hrounds & _).
  { lia. }
  { exact Hfuel. }
  { exact Hs. }
  { destruct s; [right; lia | left; lia]. }
  { intros i Hi. apply Hyield. lia. }
  exists w', new. rewrite (fold_training_unfold _ _ _ _ _ s Hs).
  rewrite boundary_count_rounds_after in Hrounds. done.
Qed.

(** X4.  A training loop that ends normally - at the budget or because
    the iterator ran dry - leaves the model and the optimizer that result
    from applying the gradient step to the batches pulled, in order and
    each converted to grayscale; validation rounds and checkpointing in
    between do not change them. *)
Theorem trained_model_is_gradient_steps
    (fuel : nat) (patch_size : list nat) (fd : fold_data) (l : fold_locals) (w : world)
    (s n : nat) :
  arg_steps_per_epoch (w_args w) = Some s ->
  n <= arg_epochs (w_args w) * s ->
  n < fuel ->
  (forall i, i < n -> yields_rgb fd i) ->
  fd_train_loader fd n = None \/ (n = arg_epochs (w_args w) * s /\ yields_rgb fd n) ->
  exists l' w',
    fold_training data_manifest fuel patch_size fd l w = (Ok l', w') /\
    (l_model l', l_optimizer l')
    = gradient_steps (w_args w) (ds_take n (fd_train_loader fd)) (l_model l, l_optimizer l).
Proof.
  intros Hs Hn Hfuel Hyield Hend.
  assert (Hstop : forall l0 w0,
            train_iteration data_manifest patch_size fd (arg_epochs (w_args w) * s) n l0 w0
            = (Ok None, w0)).
  { intros l0 w0. destruct Hend as [Hnone | [-> Hrgb]].
    - by apply train_iteration_exhausted.
    - apply train_iteration_stop. by right. }
  destruct (train_loop_prefix patch_size fd (arg_epochs (w_args w) * s) s n (Ok None)
              Hstop ltac:(discriminate) Hn n 0 l w fuel)
    as (l' & w' & new & Hrun & _ & _ & _ & _ & Hmodel).
  { lia. }
  { exact Hfuel. }
  { exact Hs. }
  { destruct s; [right; lia | left; lia]. }
  { intros i Hi. apply Hyield. lia. }
  exists l', w'. rewrite (fold_training_unfold _ _ _ _ _ s Hs). done.
Qed.

(** *** Epoch numbers *)

Lemma logged_epochs_app (t1 t2 : list event) :
  logged_epochs (t1 ++ t2) = logged_epochs t1 ++ logged_epochs t2.
Proof. apply omap_app. Qed.

Lemma val_events_logged_epochs bs : logged_epochs (val_events bs) = [].
Proof. induction bs as [| b bs IH]; [reflexivity | exact IH]. Qed.

Lemma validation_events_logged_epochs a patch_size fd l :
  logged_epochs (validation_events data_manifest a patch_size fd l) = [l_current_epoch l].
Proof.
  unfold validation_events. rewrite logged_epochs_app, val_events_logged_epochs.
  change (logged_epochs (?e :: ?t)) with (logged_epochs t).
  rewrite logged_epochs_app. unfold save_events.
  destruct (loss_lt _ _); reflexivity.
Qed.

Lemma locals_after_train_step_epoch a image mask l :
  l_current_epoch (locals_after_train_step a image mask l) = l_current_epoch l.
Proof.
  unfold locals_after_train_step.
  by destruct (gradient_step a (l_model l) (l_optimizer l) image mask) as [[m o] loss].
Qed.

Lemma train_iteration_epochs (w0 : world) patch_size fd total_steps g l w :
  epochs_invariant w0 l w ->
  match train_iteration data_manifest patch_size fd total_steps g l w with
  | (Ok (Some l'), w') => epochs_invariant w0 l' w'
  | (Ok None, w') => epochs_invariant w0 l w'
  | (_, w') => exists l', epochs_invariant w0 l' w'
  end.
Proof.
  intros (new & Htr & Hlog & Hep).
  destruct (train_iteration_cases patch_size fd total_steps g l w)
    as [-> | [[e ->] | [(image & mask & e & ->) | (image & mask & s & _ & _ & _ & _ & _ & _ & ->)]]].
  - by exists new.
  - exists l. by exists new.
  - exists l, (new ++ [EvTrainStep g (gray image) (gray mask)]).
    cbn [w_trace add_events]. rewrite Htr, <- app_assoc.
    rewrite logged_epochs_app, validation_rounds_app. cbn. rewrite !app_nil_r. done.
  - unfold iteration_result.
    set (l1 := locals_after_train_step (w_args w) (gray image) (gray mask) l).
    assert (Hep1 : l_current_epoch l1 = l_current_epoch l)
      by apply locals_after_train_step_epoch.
    destruct (epoch_boundary s g).
    + exists (new ++ EvTrainStep g (gray image) (gray mask)
                   :: validation_events data_manifest (w_args w) patch_size fd l1).
      unfold world_after_validation, locals_after_validation.
      cbn [w_trace add_events with_fs l_current_epoch].
      split; [rewrite Htr, <- !app_assoc; reflexivity |].
      rewrite logged_epochs_app, validation_rounds_app.
      change (logged_epochs (EvTrainStep g (gray image) (gray mask) :: ?t))
        with (logged_epochs t).
      change (validation_rounds (EvTrainStep g (gray image) (gray mask) :: ?t))
        with (validation_rounds t).
      rewrite validation_events_logged_epochs, validation_events_rounds.
      rewrite length_app. cbn [length]. rewrite Nat.add_1_r, seq_S.
      rewrite Hlog, Hep1, Hep. done.
    + exists (new ++ [EvTrainStep g (gray image) (gray mask)]).
      cbn [w_trace add_events]. rewrite Htr, <- app_assoc.
      rewrite logged_epochs_app, validation_rounds_app. cbn. rewrite !app_nil_r.
      rewrite Hep1. done.
Qed.

(** X5.  In the training loop of a fold, whatever its outcome, the
    validation rounds are logged under the epoch numbers 1, 2, 3, ... in
    order, one number per round; when the loop ends normally the epoch
    counter is one more than the number of rounds run. *)
Theorem validation_rounds_are_numbered
    (fuel : nat) (patch_size : list nat) (depth fold : nat) (fd : fold_data) (w : world) :
  exists new,
    w_trace (snd (fold_training data_manifest fuel patch_size fd
                    (fresh_locals data_manifest (w_args w) patch_size depth fold) w))
    = w_trace w ++ new /\
    logged_epochs new = seq 1 (length (validation_rounds new)) /\
    (forall l',
       fst (fold_training data_manifest fuel patch_size fd
              (fresh_locals data_manifest (w_args w) patch_size depth fold) w) = Ok l' ->
       l_current_epoch l' = S (length (validation_rounds new))).
Proof.
  set (l0 := fresh_locals data_manifest (w_args w) patch_size depth fold).
  assert (HI0 : epochs_invariant w l0 w).
  { exists []. rewrite app_nil_r. done. }
  assert (Hloop : forall total_steps,
            match train_loop data_manifest fuel patch_size fd total_steps 0 l0 w with
            | (Ok l', w') => epochs_invariant w l' w'
            | (_, w') => exists l', epochs_invariant w l' w'
            end).
  { intros total_steps.
    apply (train_loop_rule (epochs_invariant w) (fun w' => exists l', epochs_invariant w l' w'));
      [| by eauto | exact HI0].
    intros g l1 w1 HI. apply train_iteration_epochs. exact HI. }
  unfold fold_training, bind, get_args, ret, raise. cbn.
  destruct (arg_steps_per_epoch (w_args w)) as [s |].
  - specialize (Hloop (arg_epochs (w_args w) * s)).
    destruct (train_loop data_manifest fuel patch_size fd (arg_epochs (w_args w) * s) 0 l0 w)
      as [[l' | e |] w']; cbn.
    + destruct Hloop as (new & Htr & Hlog & Hep). exists new.
      split; [exact Htr |]. split; [exact Hlog |]. by intros l'' [= <-].
    + destruct Hloop as (l' & new & Htr & Hlog & _). exists new. by repeat split.
    + destruct Hloop as (l' & new & Htr & Hlog & _). exists new. by repeat split.
  - cbn. exists []. rewrite app_nil_r. by repeat split.
Qed.

(** *** A fold number outside the splits *)

Lemma for_each_app {A S} (body : A -> S -> M S) (xs ys : list A) (s : S) (w : world) :
  for_each body (xs ++ ys) s w = bind (for_each body xs s) (fun s' => for_each body ys s') w.
Proof.
  revert s w. induction xs as [| x xs IH]; intros s w; cbn [for_each app].
  - reflexivity.
  - unfold bind. destruct (body x s w) as [[s' | e |] w1]; [apply IH | done..].
Qed.

(** X6.  A requested fold number that is not below the number of splits
    makes [train] raise [IndexError] as soon as that fold starts: the
    folds requested before it have run, nothing of that fold has happened
    beyond its start being announced, the folds after it never start and
    [on_training_end] is not called. *)
Theorem fold_out_of_range_raises
    (fuel : nat) (w : world) (before : list nat) (fold : nat) (rest : list nat)
    (patch_size : list nat) (depth : nat) (w0 w1 : world) :
  arg_folds (w_args w) = before ++ fold :: rest ->
  length splits <= fold ->
  train_init w = (Ok (patch_size, depth), w0) ->
  for_each (train_fold data_manifest splits fuel patch_size depth) before tt w0 = (Ok tt, w1) ->
  train data_manifest splits fuel w = (Raise IndexError, add_events [EvFoldStart fold] w1).
Proof.
  intros Hfolds Hrange Hinit Hbefore.
  pose proof (train_init_ok _ _ _ _ Hinit) as Hw0.
  unfold train. rewrite (bind_ok _ _ _ _ _ Hinit).
  unfold bind at 1, get_args at 1. cbn [fst snd].
  assert (w_args w0 = w_args w) as -> by (by subst w0).
  rewrite Hfolds. erewrite bind_raise; [reflexivity |].
  rewrite for_each_app. rewrite (bind_ok _ _ _ _ _ Hbefore).
  cbn [for_each]. erewrite bind_raise; [reflexivity |].
  unfold train_fold. erewrite bind_raise; [reflexivity |].
  unfold fold_setup, bind, emit, raise, add_events. cbn.
  rewrite (lookup_ge_None_2 splits fold Hrange). reflexivity.
Qed.

(** *** What a run does to [self.args] *)

#[local] Instance only_steps_per_epoch_set_preorder : PreOrder only_steps_per_epoch_set.
Proof.
  split.
  - intros w. split; [reflexivity | auto].
  - intros w1 w2 w3 [H12 K12] [H23 K23]. split; [congruence | auto].
Qed.

Lemma keeps_args_only_steps {A} (c : M A) :
  preserves (keeps w_args) c -> preserves only_steps_per_epoch_set c.
Proof.
  intros Hc w. specialize (Hc w). unfold keeps in Hc.
  split; [by rewrite Hc | intros s Hs; by rewrite Hc].
Qed.

Lemma fold_setup_only_steps patch_size depth fold :
  preserves only_steps_per_epoch_set (fold_setup data_manifest splits patch_size depth fold).
Proof.
  intros w. unfold fold_setup, bind, emit, get_args, put_args, ret, raise, py_floordiv. cbn.
  destruct (splits !! fold) as [fd |]; cbn; [| split; cbn; [reflexivity | auto]].
  destruct (arg_steps_per_epoch (w_args w)) as [s |] eqn:Hs; cbn.
  - split; cbn; [by destruct (w_args w) | intros s' Hs'; congruence].
  - destruct (arg_batch_size (w_args w)) as [| b]; cbn.
    + split; cbn; [reflexivity | by rewrite Hs].
    + split; cbn; [by destruct (w_args w) | intros s' Hs'; congruence].
Qed.

Lemma train_fold_only_steps fuel patch_size depth fold u :
  preserves only_steps_per_epoch_set
    (train_fold data_manifest splits fuel patch_size depth fold u).
Proof.
  unfold train_fold. apply preserves_bind; [apply _ | apply fold_setup_only_steps |].
  intros fdl. apply keeps_args_only_steps. apply fold_rest_keeps_args.
Qed.

Lemma train_init_keeps_args : preserves (keeps w_args) train_init.
Proof. preserves_auto. Qed.

Lemma on_training_end_keeps_args : preserves (keeps w_args) on_training_end.
Proof. preserves_auto. Qed.

Lemma train_only_steps fuel :
  preserves only_steps_per_epoch_set (train data_manifest splits fuel).
Proof.
  unfold train.
  apply preserves_bind; [apply _ | apply keeps_args_only_steps, train_init_keeps_args |].
  intros pd. apply preserves_bind; [apply _ | apply preserves_get_args; apply _ |].
  intros a. apply preserves_bind; [apply _ | |].
  - apply preserves_for_each; [apply _ |]. intros fold u. apply train_fold_only_steps.
  - intros _. apply keeps_args_only_steps, on_training_end_keeps_args.
Qed.

Lemma bind_assoc {A B C} (c : M A) (k1 : A -> M B) (k2 : B -> M C) (w : world) :
  bind (bind c k1) k2 w = bind c (fun a => bind (k1 a) k2) w.
Proof. unfold bind. by destruct (c w) as [[a | e |] w1]. Qed.

Lemma preserves_after_ok {A B} (R : relation world) (c : M A) (k : A -> M B)
    (w w1 : world) (a : A) :
  c w = (Ok a, w1) -> preserves R (k a) -> R w1 (snd (bind c k w)).
Proof. intros Hc Hk. rewrite (bind_ok _ _ _ _ _ Hc). apply Hk. Qed.

Lemma fold_setup_eq patch_size depth fold w fd s :
  splits !! fold = Some fd ->
  derived_steps_per_epoch (w_args w) fd = Some s ->
  fold_setup data_manifest splits patch_size depth fold w
  = (Ok (fd, fresh_locals data_manifest (set_steps_per_epoch (Some s) (w_args w))
               patch_size depth fold),
     World (set_steps_per_epoch (Some s) (w_args w)) (w_results_df w) (w_k_metrics w)
       (w_fs w) (w_trace w ++ [EvFoldStart fold]) (w_learning_rate w)).
Proof.
  intros Hfd Hs.
  unfold fold_setup, derived_steps_per_epoch, bind, emit, get_args, put_args, ret, raise,
    py_floordiv in *. cbn. rewrite Hfd. cbn.
  destruct (arg_steps_per_epoch (w_args w)) as [s' |]; cbn.
  - injection Hs as ->. reflexivity.
  - destruct (arg_batch_size (w_args w)) as [| b]; [discriminate |].
    injection Hs as <-. reflexivity.
Qed.

(** X7.  A run of [train], whatever its outcome, changes nothing in
    [self.args] except possibly the steps per epoch, and never changes
    steps per epoch that are set.  When they are not set, they take the
    value derived from the training files of the first requested fold and
    keep it to the end of the run, for every later fold. *)
Theorem train_changes_only_steps_per_epoch (fuel : nat) (w : world) :
  only_steps_per_epoch_set w (snd (train data_manifest splits fuel w)) /\
  (forall fold rest fd b,
     arg_folds (w_args w) = fold :: rest ->
     arg_steps_per_epoch (w_args w) = None ->
     splits !! fold = Some fd ->
     arg_batch_size (w_args w) = S b ->
     arg_steps_per_epoch (w_args (snd (train data_manifest splits fuel w)))
     = Some (length (fd_train_images fd) / S b)).
Proof.
  split; [apply train_only_steps |].
  intros fold rest fd b Hfolds Hnone Hfd Hb.
  set (s0 := length (fd_train_images fd) / S b).
  unfold train. unfold bind at 1.
  destruct (train_init w) as [[[ps depth] | e |] w0] eqn:Hinit;
    [| unfold train_init, bind, get_args, put_k_metrics, put_learning_rate, ret in Hinit;
       cbn in Hinit; discriminate..].
  pose proof (train_init_ok _ _ _ _ Hinit) as Hw0.
  assert (Ha0 : w_args w0 = w_args w) by (by subst w0).
  unfold bind at 1, get_args at 1. cbn [fst snd]. rewrite Ha0, Hfolds.
  cbn [for_each]. unfold train_fold at 1. rewrite !bind_assoc.
  assert (Hsetup : derived_steps_per_epoch (w_args w0) fd = Some s0).
  { unfold derived_steps_per_epoch. rewrite Ha0, Hnone, Hb. reflexivity. }
  pose proof (fold_setup_eq ps depth fold w0 fd s0 Hfd Hsetup) as Heq.
  match goal with
  | |- arg_steps_per_epoch (w_args (snd (bind _ ?k _))) = _ =>
      pose proof (preserves_after_ok only_steps_per_epoch_set _ k _ _ _ Heq) as Hrel
  end.
  destruct Hrel as [_ Hkeep]; [| by apply Hkeep].
  cbn beta.
  apply preserves_bind; [apply _ | |].
  { apply preserves_bind; [apply _ | apply keeps_args_only_steps; preserves_auto |].
    intros l. apply preserves_bind; [apply _ | apply keeps_args_only_steps; preserves_auto |].
    intros _. apply keeps_args_only_steps. preserves_auto. }
  intros u. apply preserves_bind; [apply _ | |].
  - apply preserves_for_each; [apply _ |]. intros f u'. apply train_fold_only_steps.
  - intros _. apply keeps_args_only_steps, on_training_end_keeps_args.
Qed.

(** *** A fold without a validation round *)

Lemma fold_finish_adam l w :
  arg_optimizer (w_args w) = "adam" ->
  fold_finish l w
  = (Ok tt,
     World (w_args w) (w_results_df w)
       (w_k_metrics w
        ++ [(Mean.result (l_val_loss l), optimizer_learning_rate (l_optimizer l))])
       (<[best_model_path (l_checkpoint l) +:+ "/best/" := SavedModel (l_model l)]> (w_fs w))
       (w_trace w
        ++ [EvOnEpochEnd (Mean.result (l_val_loss l))
              (optimizer_learning_rate (l_optimizer l));
            EvSave (best_model_path (l_checkpoint l) +:+ "/best/") (l_model l)])
       (Some (optimizer_learning_rate (l_optimizer l)))).
Proof.
  intros Hadam.
  unfold fold_finish, bind, get_args, put_learning_rate, read_learning_rate, on_epoch_end,
    Checkpoints_save_last_model, save_model, emit, get_k_metrics, put_k_metrics, get_fs,
    put_fs, ret.
  cbn. rewrite Hadam. cbn. rewrite <- app_assoc. reflexivity.
Qed.

(** X8.  A fold whose budget leaves no room for a validation round
    (no epoch, no step, or a single epoch of a single step) never writes
    its best path: on a disk that has nothing there, and with the adam
    optimizer, the fold trains its steps, calls [on_epoch_end] and then
    fails with [OSError] when the test evaluation loads the best model;
    [on_kFold_end] is not called. *)
Theorem fold_without_validation_fails_to_load
    (fuel : nat) (patch_size : list nat) (depth fold : nat) (w : world)
    (fd : fold_data) (s : nat) :
  splits !! fold = Some fd ->
  arg_steps_per_epoch (w_args w) = Some s ->
  validation_round_count (arg_epochs (w_args w)) s = 0 ->
  arg_epochs (w_args w) * s < fuel ->
  (forall i, i < arg_epochs (w_args w) * s -> yields_rgb fd i) ->
  (fd_train_loader fd (arg_epochs (w_args w) * s) = None \/
   yields_rgb fd (arg_epochs (w_args w) * s)) ->
  arg_optimizer (w_args w) = "adam" ->
  w_fs w !! fold_best_model_path data_manifest (w_args w) fold = None ->
  exists w' new,
    train_fold data_manifest splits fuel patch_size depth fold tt w = (Raise OSError, w') /\
    w_trace w' = w_trace w ++ new /\
    train_steps new = seq 0 (arg_epochs (w_args w) * s) /\
    hooks new = [HookEpochEnd].
Proof.
  intros Hfd Hs Hcount Hfuel Hyield Hend Hadam Hclean.
  assert (Hderived : derived_steps_per_epoch (w_args w) fd = Some s).
  { unfold derived_steps_per_epoch. by rewrite Hs. }
  pose proof (fold_setup_eq patch_size depth fold w fd s Hfd Hderived) as Hsetup.
  rewrite (set_steps_per_epoch_same _ _ Hs) in Hsetup.
  set (l0 := fresh_locals data_manifest (w_args w) patch_size depth fold) in *.
  set (w1 := World (w_args w) (w_results_df w) (w_k_metrics w) (w_fs w)
               (w_trace w ++ [EvFoldStart fold]) (w_learning_rate w)) in *.
  destruct (train_loop_budget patch_size fd (arg_epochs (w_args w) * s) s Hend
              (arg_epochs (w_args w) * s) 0 l0 w1 fuel)
    as (l1 & w2 & new & Hrun & Hargs & Htr & Hsteps & Hrounds & _).
  { lia. }
  { exact Hfuel. }
  { exact Hs. }
  { destruct s; [right; lia | left; lia]. }
  { intros i Hi. apply Hyield. lia. }
  rewrite boundary_count_epochs, Hcount in Hrounds.
  apply nil_length_inv in Hrounds.
  set (bp := fold_best_model_path data_manifest (w_args w) fold) in *.
  set (lp := fold_last_model_path data_manifest (w_args w) fold).
  assert (HI0 : best_invariant w1 None bp lp l0 w1).
  { split; [reflexivity |]. split; [reflexivity |].
    exists []. split; [by rewrite app_nil_r |]. left. done. }
  pose proof (train_loop_best_invariant w1 None bp lp _ _ _ _ _ _ _ _ _
                (best_path_not_last_path (w_args w) fold) HI0 Hrun)
    as (Hbp & _ & new' & Htr' & Hst).
  assert (new' = new) as -> by (rewrite Htr in Htr'; by apply app_inv_head in Htr').
  assert (Hfs2 : w_fs w2 !! bp = None).
  { destruct Hst as [(_ & _ & Hprev) | (k & m & c & _ & _ & Hlook & _)]; [exact Hprev |].
    rewrite Hrounds in Hlook. by rewrite lookup_nil in Hlook. }
  assert (Hfold : fold_training data_manifest fuel patch_size fd l0 w1 = (Ok l1, w2)).
  { rewrite (fold_training_unfold fuel patch_size fd l0 w1 s Hs). exact Hrun. }
  pose proof (fold_training_events fuel patch_size fd l0 w1) as (new'' & Htr'' & Hev).
  rewrite Hfold in Htr''. cbn [snd] in Htr''.
  assert (new'' = new) as -> by (rewrite Htr in Htr''; by apply app_inv_head in Htr'').
  assert (Hadam2 : arg_optimizer (w_args w2) = "adam") by (by rewrite Hargs).
  eexists.
  exists (EvFoldStart fold :: new
          ++ [EvOnEpochEnd (Mean.result (l_val_loss l1))
                (optimizer_learning_rate (l_optimizer l1));
              EvSave (best_model_path (l_checkpoint l1) +:+ "/best/") (l_model l1)]).
  split; [| split; [| split]].
  - unfold train_fold. rewrite (bind_ok _ _ _ _ _ Hsetup). cbn [fst snd].
    rewrite (bind_ok _ _ _ _ _ Hfold).
    rewrite (bind_ok _ _ _ _ _ (fold_finish_adam l1 w2 Hadam2)).
    unfold fold_test_eval. erewrite bind_raise; [reflexivity |].
    unfold predict_and_evaluate_val. erewrite bind_raise; [reflexivity |].
    unfold load_model, bind, get_fs, raise. cbn [w_fs]. rewrite Hbp.
    rewrite lookup_insert_ne
      by (intros Heq; symmetry in Heq; by apply path_not_its_subdirectory in Heq).
    rewrite Hfs2. reflexivity.
  - cbn [w_trace]. rewrite Htr. subst w1. cbn [w_trace].
    rewrite <- !app_assoc, ?Hbp. reflexivity.
  - change (EvFoldStart fold :: ?t) with ([EvFoldStart fold] ++ t).
    unfold train_steps. rewrite !omap_app. cbn. rewrite app_nil_r. exact Hsteps.
  - change (EvFoldStart fold :: ?t) with ([EvFoldStart fold] ++ t).
    rewrite !hooks_app. rewrite (training_events_no_hooks new Hev). reflexivity.
Qed.

(** *** Test evaluation of a non-empty frame *)

Lemma temp_filenames_differ (a : Args) : pred_temp_filename a <> mask_temp_filename a.
Proof.
  unfold pred_temp_filename, mask_temp_filename.
  destruct (path_join_last (arg_results a) ["predictions"; "train"; "raw"] "pred_temp.nii.gz")
    as [p Hp].
  destruct (path_join_last (arg_results a) ["predictions"; "train"; "raw"] "mask_temp.nii.gz")
    as [q Hq].
  cbn [app] in Hp, Hq. rewrite Hp, Hq. clear Hp Hq.
  intros Heq. apply (f_equal String.list_ascii_of_string) in Heq.
  rewrite !list_ascii_of_string_app in Heq.
  apply app_inj_2 in Heq as [_ Heq]; [discriminate | reflexivity].
Qed.

Lemma ds_take_from_length_le {A} (ds : dataset A) (n start : nat) :
  length (ds_take_from ds start n) <= n.
Proof.
  revert start. induction n as [| n IH]; intros start; cbn [ds_take_from]; [done |].
  destruct (ds start); cbn [length]; [| lia]. specialize (IH (S start)). lia.
Qed.

(** The loop of lines 70-101 from case number [k] on. *)
Lemma predict_loop_ok (m : model) (df : list patient) (a : Args) :
  forall (items : list batch) (k : nat) (w : world),
    w_args w = a ->
    (forall i b, items !! i = Some b ->
       exists p, df !! (k + i) = Some p /\ pat_images p <> []) ->
    exists w',
      for_each (predict_case m df (pred_temp_filename a) (mask_temp_filename a))
        (zip (seq k (length items)) items) tt w = (Ok tt, w') /\
      w_args w' = a /\
      w_results_df w' = w_results_df w ++ zip_with (case_row m) (drop k df) items /\
      w_trace w'
      = w_trace w ++ map (fun p => EvPredict (pat_id p)) (take (length items) (drop k df)) /\
      w_k_metrics w' = w_k_metrics w /\
      ((items = [] /\ w' = w) \/
       (is_Some (w_fs w' !! pred_temp_filename a) /\
        is_Some (w_fs w' !! mask_temp_filename a))).
Proof.
  induction items as [| b items IH]; intros k w Ha Hdf.
  - exists w. split; [reflexivity |]. split; [exact Ha |].
    split; [by rewrite zip_with_nil_r, app_nil_r |].
    split; [cbn [length take map]; by rewrite app_nil_r |].
    split; [reflexivity | by left].
  - destruct (Hdf 0 b eq_refl) as (p & Hp & Himg). rewrite Nat.add_0_r in Hp.
    cbn [length seq zip zip_with for_each]. unfold bind at 1.
    unfold predict_case at 1. cbn [fst snd]. rewrite Hp.
    destruct (pat_images p) as [| image0 images] eqn:Hp_images; [done |].
    unfold bind, emit, get_args, image_write, evaluate_prediction, append_result, get_fs,
      put_fs, ret. cbn -[pred_temp_filename mask_temp_filename path_join].
    match goal with
    | |- exists w', for_each _ _ _ ?w1 = _ /\ _ =>
        destruct (IH (S k) w1) as (w' & Hrun & Ha' & Hres & Htr & Hk & Hfs)
    end.
    { cbn. exact Ha. }
    { intros i b' Hb'. replace (S k + i) with (k + S i) by lia. by apply (Hdf (S i) b'). }
    exists w'. split; [exact Hrun |]. split; [exact Ha' |].
    rewrite (drop_S df p k Hp). cbn [zip_with take map].
    split; [| split; [| split]].
    + rewrite Hres. cbn [w_results_df]. rewrite <- app_assoc. cbn [app].
      unfold case_row. rewrite Hp_images. reflexivity.
    + rewrite Htr. cbn [w_trace]. by rewrite <- app_assoc.
    + exact Hk.
    + right. destruct Hfs as [[_ ->] | Hfs]; [| exact Hfs].
      cbn [w_fs]. rewrite Ha. split.
      * destruct (decide (mask_temp_filename a = pred_temp_filename a)) as [-> | Hne].
        -- rewrite lookup_insert_eq. by eexists.
        -- rewrite lookup_insert_ne by done. rewrite lookup_insert_eq. by eexists.
      * rewrite lookup_insert_eq. by eexists.
Qed.

(** X9.  With a saved model at the path, every row of the frame holding
    at least one image path, and at least one case to go through,
    [predict_and_evaluate_val] ends normally: it appends one results row
    per case, in the order of the frame, for as many cases as the loader
    yields items (at most the length of the frame), predicts the cases in
    that order, and leaves neither temporary file behind. *)
Theorem predict_and_evaluate_val_appends_rows
    (model_path : string) (df : list patient) (ds : dataset batch) (w : world) (m : model) :
  w_fs w !! model_path = Some (SavedModel m) ->
  Forall (fun p => pat_images p <> []) df ->
  ds_take (length df) ds <> [] ->
  exists w',
    predict_and_evaluate_val model_path df ds w = (Ok tt, w') /\
    w_results_df w' = w_results_df w ++ zip_with (case_row m) df (ds_take (length df) ds) /\
    w_trace w'
    = w_trace w
      ++ map (fun p => EvPredict (pat_id p)) (take (length (ds_take (length df) ds)) df) /\
    w_fs w' !! pred_temp_filename (w_args w) = None /\
    w_fs w' !! mask_temp_filename (w_args w) = None.
Proof.
  intros Hmodel Himages Hitems.
  set (items := ds_take (length df) ds) in *.
  assert (Hlen : length items <= length df) by apply ds_take_from_length_le.
  destruct (predict_loop_ok m df (w_args w) items 0 w eq_refl)
    as (w1 & Hloop & Ha1 & Hres & Htr & _ & Hfs).
  { intros i b Hb. apply lookup_lt_Some in Hb.
    destruct (lookup_lt_is_Some_2 df i ltac:(lia)) as [p Hp].
    exists p. split; [exact Hp |].
    rewrite Forall_forall in Himages. apply Himages. by eapply list_elem_of_lookup_2. }
  destruct Hfs as [[Hnil _] | [[f1 Hf1] [f2 Hf2]]]; [done |].
  rewrite drop_0 in Hres, Htr.
  exists (with_fs (delete (mask_temp_filename (w_args w))
                     (delete (pred_temp_filename (w_args w)) (w_fs w1))) w1).
  split; [| split; [exact Hres | split; [exact Htr | split]]].
  - unfold predict_and_evaluate_val.
    erewrite bind_ok; [| unfold load_model, bind, get_fs, ret; cbv beta iota;
                         cbn [w_fs fst snd]; rewrite Hmodel; reflexivity].
    unfold bind at 1, get_args at 1. cbv beta iota.
    unfold enumerate. rewrite (bind_ok _ _ _ _ _ Hloop).
    unfold os_remove, bind, get_fs, put_fs, with_fs.
    cbn -[pred_temp_filename mask_temp_filename]. rewrite Hf1.
    cbn -[pred_temp_filename mask_temp_filename].
    rewrite lookup_delete_ne by apply temp_filenames_differ. rewrite Hf2. reflexivity.
  - cbn [w_fs with_fs]. rewrite lookup_delete_ne
      by (intros Heq; symmetry in Heq; by apply temp_filenames_differ in Heq).
    apply lookup_delete_eq.
  - cbn [w_fs with_fs]. apply lookup_delete_eq.
Qed.

(** *** Checkpoint paths of different folds *)

Lemma starts_with_sep_app (task rest1 rest2 : string) :
  starts_with_sep rest1 = starts_with_sep rest2 ->
  starts_with_sep (task +:+ rest1) = starts_with_sep (task +:+ rest2).
Proof. destruct task as [| c task]; [done |]. intros _. reflexivity. Qed.

Lemma path_join2_inj (path b1 b2 : string) :
  starts_with_sep b1 = starts_with_sep b2 ->
  path_join2 path b1 = path_join2 path b2 ->
  b1 = b2.
Proof.
  unfold path_join2. intros Hsep. rewrite Hsep.
  destruct (starts_with_sep b2); [done |].
  destruct (if String.eqb path "" then true else ends_with_sep path).
  - apply String.app_inj.
  - intros Heq. apply String.app_inj in Heq. injection Heq as Heq. exact Heq.
Qed.

Lemma pretty_N_go_digits (x : N) (s : string) :
  Forall (fun c => is_digit c = true) (String.list_ascii_of_string s) ->
  Forall (fun c => is_digit c = true) (String.list_ascii_of_string (pretty_N_go x s)).
Proof.
  revert s. induction (N.lt_wf_0 x) as [x _ IH]; intros s Hs.
  assert (x = 0 \/ 0 < x)%N as [-> | Hpos] by lia.
  - by rewrite pretty_N_go_0.
  - rewrite pretty_N_go_step by done. apply IH; [by apply N.div_lt |].
    cbn [String.list_ascii_of_string]. constructor; [| done].
    unfold pretty_N_char. by repeat case_match.
Qed.

(** The decimal rendering of a fold number consists of digits. *)
Lemma pretty_nat_digits (n : nat) :
  Forall (fun c => is_digit c = true) (String.list_ascii_of_string (pretty n)).
Proof.
  unfold pretty, pretty_nat, pretty, pretty_N. case_decide.
  - by repeat constructor.
  - apply pretty_N_go_digits. constructor.
Qed.

Lemma split_at_first_non_digit (u1 u2 r1 r2 : list ascii) (c : ascii) :
  is_digit c = false ->
  Forall (fun c => is_digit c = true) u1 ->
  Forall (fun c => is_digit c = true) u2 ->
  u1 ++ c :: r1 = u2 ++ c :: r2 ->
  u1 = u2 /\ r1 = r2.
Proof.
  intros Hc H1. revert u2. induction H1 as [| x u1 Hx _ IH]; intros u2 H2 Heq.
  - destruct H2 as [| y u2 Hy _]; cbn in Heq.
    + by injection Heq.
    + injection Heq as <- _. congruence.
  - destruct H2 as [| y u2 Hy H2]; cbn in Heq.
    + injection Heq as -> _. congruence.
    + injection Heq as <- Heq. by destruct (IH u2 H2 Heq) as [-> ->].
Qed.

(** A path that ends in [name] followed by a fold number, read from its
    end: the digits of the number, then [name] backwards. *)
Lemma numbered_path_reversed (p task name : string) (fold : nat) :
  rev (String.list_ascii_of_string (p +:+ task +:+ name +:+ pretty fold))
  = rev (String.list_ascii_of_string (pretty fold))
    ++ rev (String.list_ascii_of_string name)
    ++ rev (String.list_ascii_of_string task) ++ rev (String.list_ascii_of_string p).
Proof. rewrite !list_ascii_of_string_app, !rev_app_distr, <- !app_assoc. reflexivity. Qed.

Lemma best_path_reversed (a : Args) (fold : nat) :
  exists p,
    rev (String.list_ascii_of_string (fold_best_model_path data_manifest a fold))
    = rev (String.list_ascii_of_string (pretty fold))
      ++ rev (String.list_ascii_of_string "_best_model_split_") ++ p.
Proof.
  unfold fold_best_model_path.
  destruct (path_join_last (arg_results a) ["models"; "best"]
              (data_task data_manifest +:+ "_best_model_split_" +:+ pretty fold)) as [p Hp].
  cbn [app] in Hp. rewrite Hp, numbered_path_reversed. eauto.
Qed.

Lemma last_path_reversed (a : Args) (fold : nat) :
  exists p,
    rev (String.list_ascii_of_string (fold_last_model_path data_manifest a fold))
    = rev (String.list_ascii_of_string (pretty fold))
      ++ rev (String.list_ascii_of_string "_last_model_split_") ++ p.
Proof.
  unfold fold_last_model_path.
  destruct (path_join_last (arg_results a) ["models"; "last"]
              (data_task data_manifest +:+ "_last_model_split_" +:+ pretty fold)) as [p Hp].
  cbn [app] in Hp. rewrite Hp, numbered_path_reversed. eauto.
Qed.

Lemma best_path_not_any_last_path (a : Args) (fold1 fold2 : nat) :
  fold_best_model_path data_manifest a fold1 <> fold_last_model_path data_manifest a fold2.
Proof.
  intros Heq. apply (f_equal (fun p => rev (String.list_ascii_of_string p))) in Heq.
  destruct (best_path_reversed a fold1) as [p Hp].
  destruct (last_path_reversed a fold2) as [q Hq].
  cbv beta in Heq. rewrite Hp, Hq in Heq. cbn [String.list_ascii_of_string rev app] in Heq.
  apply split_at_first_non_digit in Heq as [_ Heq];
    [discriminate | reflexivity | apply Forall_rev, pretty_nat_digits..].
Qed.

(** The directory of the end-of-fold save ends in a separator, a slot of
    a checkpoint tracker in a fold number. *)
Lemma subdirectory_not_a_slot (path : string) (a : Args) (fold : nat) :
  path +:+ "/best/" <> fold_best_model_path data_manifest a fold /\
  path +:+ "/best/" <> fold_last_model_path data_manifest a fold.
Proof.
  split; intros Heq; apply (f_equal (fun p => rev (String.list_ascii_of_string p))) in Heq;
    cbv beta in Heq; rewrite list_ascii_of_string_app, rev_app_distr in Heq;
    [destruct (best_path_reversed a fold) as [p Hp]
    | destruct (last_path_reversed a fold) as [p Hp]];
    rewrite Hp in Heq; cbn [String.list_ascii_of_string rev app] in Heq;
    pose proof (pretty_nat_digits fold) as Hd; apply Forall_rev in Hd;
    destruct (rev (String.list_ascii_of_string (pretty fold))) as [| c ds];
    cbn [app] in Heq; try discriminate;
    injection Heq as <- _; apply Forall_cons in Hd as [Hc _]; discriminate.
Qed.

Lemma string_app_inv_tail (s1 s2 t : string) : s1 +:+ t = s2 +:+ t -> s1 = s2.
Proof.
  intros Heq. apply (f_equal String.list_ascii_of_string) in Heq.
  rewrite !list_ascii_of_string_app in Heq. apply app_inv_tail in Heq.
  rewrite <- (String.string_of_list_ascii_of_string s1),
    <- (String.string_of_list_ascii_of_string s2). by rewrite Heq.
Qed.

Lemma best_path_inj (a : Args) (fold1 fold2 : nat) :
  fold_best_model_path data_manifest a fold1 = fold_best_model_path data_manifest a fold2 ->
  fold1 = fold2.
Proof.
  intros Heq. unfold fold_best_model_path, path_join in Heq. cbn [fold_left] in Heq.
  apply path_join2_inj in Heq; [| by apply starts_with_sep_app].
  apply String.app_inj in Heq. apply String.app_inj in Heq.
  by apply pretty_nat_inj in Heq.
Qed.

Lemma last_path_inj (a : Args) (fold1 fold2 : nat) :
  fold_last_model_path data_manifest a fold1 = fold_last_model_path data_manifest a fold2 ->
  fold1 = fold2.
Proof.
  intros Heq. unfold fold_last_model_path, path_join in Heq. cbn [fold_left] in Heq.
  apply path_join2_inj in Heq; [| by apply starts_with_sep_app].
  apply String.app_inj in Heq. apply String.app_inj in Heq.
  by apply pretty_nat_inj in Heq.
Qed.

Lemma fold_checkpoint_paths_distinct (a : Args) (fold : nat) :
  NoDup (fold_checkpoint_paths data_manifest a fold).
Proof.
  unfold fold_checkpoint_paths.
  destruct (subdirectory_not_a_slot (fold_best_model_path data_manifest a fold) a fold)
    as [Hb Hl].
  pose proof (best_path_not_last_path a fold) as Hbl.
  repeat (apply NoDup_cons; split); [| | | apply NoDup_nil_2].
  - rewrite !elem_of_cons, elem_of_nil. intros [? | [? | []]]; congruence.
  - rewrite !elem_of_cons, elem_of_nil. intros [? | []]; congruence.
  - apply not_elem_of_nil.
Qed.

Lemma fold_checkpoint_paths_disjoint (a : Args) (fold1 fold2 : nat) (path : string) :
  fold1 <> fold2 ->
  path ∈ fold_checkpoint_paths data_manifest a fold1 ->
  path ∉ fold_checkpoint_paths data_manifest a fold2.
Proof.
  intros Hne. unfold fold_checkpoint_paths. rewrite !elem_of_cons, !elem_of_nil.
  intros [-> | [-> | [-> | []]]] [Heq | [Heq | [Heq | []]]].
  - by apply best_path_inj in Heq.
  - by apply best_path_not_any_last_path in Heq.
  - symmetry in Heq. by apply subdirectory_not_a_slot in Heq.
  - symmetry in Heq. by apply best_path_not_any_last_path in Heq.
  - by apply last_path_inj in Heq.
  - symmetry in Heq. by apply subdirectory_not_a_slot in Heq.
  - by apply subdirectory_not_a_slot in Heq.
  - by apply subdirectory_not_a_slot in Heq.
  - apply string_app_inv_tail in Heq. by apply best_path_inj in Heq.
Qed.

Lemma save_model_within (paths : list string) (path : string) (m : model) :
  path ∈ paths -> preserves (extends_by (saves_within paths)) (save_model path m).
Proof.
  intros Hin. unfold save_model.
  apply preserves_bind; [apply _ | by apply extends_by_emit | intros _].
  repeat preserves_step.
Qed.

Lemma validation_events_within (paths : list string) a patch_size fd l :
  best_model_path (l_checkpoint l) ∈ paths ->
  last_model_path (l_checkpoint l) ∈ paths ->
  Forall (saves_within paths) (validation_events data_manifest a patch_size fd l).
Proof.
  intros Hb Hl. unfold validation_events. apply Forall_app. split.
  - unfold val_events. apply Forall_forall. intros e He.
    apply list_elem_of_fmap in He as (b & -> & _). exact I.
  - constructor; [exact I |]. apply Forall_app. split; [| by repeat constructor].
    unfold save_events. destruct (loss_lt _ _); by repeat constructor.
Qed.

(** The training loop saves models to the two slots of the checkpoint
    tracker it started with, whatever its outcome. *)
Lemma train_loop_saves_within (paths : list string) (bp lp : string) (w0 : world)
    patch_size fd total_steps fuel g l w :
  bp ∈ paths -> lp ∈ paths ->
  best_model_path (l_checkpoint l) = bp ->
  last_model_path (l_checkpoint l) = lp ->
  extends_by (saves_within paths) w0 w ->
  match train_loop data_manifest fuel patch_size fd total_steps g l w with
  | (Ok l', w') =>
      best_model_path (l_checkpoint l') = bp /\ last_model_path (l_checkpoint l') = lp /\
      extends_by (saves_within paths) w0 w'
  | (_, w') => extends_by (saves_within paths) w0 w'
  end.
Proof.
  intros Hbp Hlp Hb Hl Hext.
  apply (train_loop_rule
           (fun l w => best_model_path (l_checkpoint l) = bp /\
                       last_model_path (l_checkpoint l) = lp /\
                       extends_by (saves_within paths) w0 w)
           (fun w => extends_by (saves_within paths) w0 w)); [| tauto | tauto].
  clear - Hbp Hlp. intros g l w (Hb & Hl & Hext).
  assert (Hstep : forall evs, Forall (saves_within paths) evs ->
            extends_by (saves_within paths) w0 (add_events evs w)).
  { intros evs Hevs. etrans; [exact Hext |]. exists evs. done. }
  destruct (train_iteration_cases patch_size fd total_steps g l w)
    as [-> | [[e ->] | [(image & mask & e & ->) | (image & mask & s & _ & _ & _ & _ & _ & _ & ->)]]];
    [done | done | by apply Hstep; repeat constructor |].
  unfold iteration_result.
  set (l1 := locals_after_train_step (w_args w) (gray image) (gray mask) l).
  assert (Hck : l_checkpoint l1 = l_checkpoint l)
    by apply locals_after_train_step_checkpoint.
  destruct (epoch_boundary s g).
  - unfold locals_after_validation, world_after_validation. cbn [l_checkpoint].
    destruct (checkpoint_after_paths (l_checkpoint l1)
                (round_loss data_manifest (w_args w) patch_size fd l1)) as [-> ->].
    rewrite Hck. split; [exact Hb |]. split; [exact Hl |].
    etrans; [exact Hext |].
    exists (EvTrainStep g (gray image) (gray mask)
            :: validation_events data_manifest (w_args w) patch_size fd l1).
    split; [cbn; by rewrite <- app_assoc |].
    constructor; [exact I |].
    apply validation_events_within; rewrite Hck; congruence.
  - rewrite Hck. split; [exact Hb |]. split; [exact Hl |].
    apply Hstep. by repeat constructor.
Qed.

Lemma fold_finish_saves_within (paths : list string) (l : fold_locals) :
  best_model_path (l_checkpoint l) +:+ "/best/" ∈ paths ->
  preserves (extends_by (saves_within paths)) (fold_finish l).
Proof.
  intros Hin. unfold fold_finish, on_epoch_end, Checkpoints_save_last_model.
  repeat first [by apply save_model_within | preserves_step].
Qed.

Lemma fold_test_eval_saves_within (paths : list string) fd (l : fold_locals) :
  preserves (extends_by (saves_within paths)) (fold_test_eval fd l).
Proof. preserves_auto. Qed.

Lemma fold_setup_saves_within (paths : list string) patch_size depth fold :
  preserves (extends_by (saves_within paths))
    (fold_setup data_manifest splits patch_size depth fold).
Proof. preserves_auto. Qed.

(** X10.  A fold saves models to three paths only - the best and the
    last slot of its checkpoint tracker and the end-of-fold save under the
    best path - whatever the outcome of the fold.  The three are different
    paths, and none of them is a path of another fold: two folds of a run
    never save a model to the same path. *)
Theorem checkpoint_paths_of_folds_differ
    (fuel : nat) (patch_size : list nat) (depth : nat) (w : world) (fold1 fold2 : nat) :
  (exists new,
     w_trace (snd (train_fold data_manifest splits fuel patch_size depth fold1 tt w))
     = w_trace w ++ new /\
     Forall (saves_within (fold_checkpoint_paths data_manifest (w_args w) fold1)) new) /\
  NoDup (fold_checkpoint_paths data_manifest (w_args w) fold1) /\
  (fold1 <> fold2 ->
   forall path,
     path ∈ fold_checkpoint_paths data_manifest (w_args w) fold1 ->
     path ∉ fold_checkpoint_paths data_manifest (w_args w) fold2).
Proof.
  split; [| split; [apply fold_checkpoint_paths_distinct
                   | intros Hne path; by apply fold_checkpoint_paths_disjoint]].
  set (paths := fold_checkpoint_paths data_manifest (w_args w) fold1).
  change (extends_by (saves_within paths) w
            (snd (train_fold data_manifest splits fuel patch_size depth fold1 tt w))).
  unfold train_fold. unfold bind at 1.
  pose proof (fold_setup_saves_within paths patch_size depth fold1 w) as Hsetup.
  destruct (fold_setup data_manifest splits patch_size depth fold1 w)
    as [[[fd l0] | e |] w1] eqn:Hrun; cbn [snd] in *; try exact Hsetup.
  destruct (fold_setup_ok _ _ _ _ _ _ _ Hrun) as (s & _ & _ & _ & Hl0).
  cbn [fst snd]. unfold bind at 1.
  unfold fold_training, bind at 1, get_args at 1. cbv beta iota.
  destruct (arg_steps_per_epoch (w_args w1)) as [s' |]; [| exact Hsetup].
  unfold bind at 1, ret at 1. cbv beta iota.
  pose proof (train_loop_saves_within paths
                (fold_best_model_path data_manifest (w_args w) fold1)
                (fold_last_model_path data_manifest (w_args w) fold1) w
                patch_size fd (arg_epochs (w_args w1) * s') fuel 0 l0 w1) as Hloop.
  destruct (train_loop data_manifest fuel patch_size fd (arg_epochs (w_args w1) * s') 0 l0 w1)
    as [[l1 | e |] w2]; cbn [snd].
  - destruct Hloop as (Hb & _ & Hext);
      [subst paths; unfold fold_checkpoint_paths; set_solver..
      | subst l0; reflexivity | subst l0; reflexivity | exact Hsetup |].
    unfold bind at 1.
    pose proof (fold_finish_saves_within paths l1) as Hfinish.
    specialize (Hfinish ltac:(rewrite Hb; subst paths; unfold fold_checkpoint_paths;
                                set_solver) w2).
    destruct (fold_finish l1 w2) as [[[] | e |] w3]; cbn [snd] in *;
      try (etrans; [exact Hext | exact Hfinish]).
    etrans; [exact Hext |]. etrans; [exact Hfinish |].
    apply fold_test_eval_saves_within.
  - apply Hloop;
      [subst paths; unfold fold_checkpoint_paths; set_solver..
      | subst l0; reflexivity | subst l0; reflexivity | exact Hsetup].
  - apply Hloop;
      [subst paths; unfold fold_checkpoint_paths; set_solver..
      | subst l0; reflexivity | subst l0; reflexivity | exact Hsetup].
Qed.

(** *** Rows of the results table *)

Lemma predict_case_ok_row m df pt mt item u w u' w' :
  predict_case m df pt mt item u w = (Ok u', w') ->
  length (w_results_df w') = S (length (w_results_df w)).
Proof.
  unfold predict_case. destruct (df !! fst item) as [p |]; [| discriminate].
  destruct (pat_images p) as [| image0 images]; [discriminate |].
  unfold bind, emit, get_args, image_write, evaluate_prediction, append_result, get_fs,
    put_fs, ret. cbn -[path_join]. intros Heq. injection Heq as _ <-.
  cbn [w_results_df]. rewrite length_app. cbn [length]. lia.
Qed.

Lemma predict_loop_ok_rows m df pt mt items w w' :
  for_each (predict_case m df pt mt) items tt w = (Ok tt, w') ->
  length (w_results_df w') = length (w_results_df w) + length items.
Proof.
  revert w. induction items as [| item items IH]; intros w Hrun.
  - injection Hrun as <-. cbn. lia.
  - cbn [for_each] in Hrun. apply bind_ok_inv in Hrun as ([] & w1 & Hcase & Hrest).
    apply predict_case_ok_row in Hcase. apply IH in Hrest. cbn [length]. lia.
Qed.

Lemma os_remove_keeps_results path : preserves (keeps w_results_df) (os_remove path).
Proof. preserves_auto. Qed.

Lemma predict_and_evaluate_val_ok_rows model_path df ds w w' :
  predict_and_evaluate_val model_path df ds w = (Ok tt, w') ->
  length (w_results_df w') = length (w_results_df w) + length (ds_take (length df) ds).
Proof.
  unfold predict_and_evaluate_val. intros Hrun.
  apply bind_ok_inv in Hrun as (m & w1 & Hload & Hrun).
  apply bind_ok_inv in Hrun as (a & w2 & Hargs & Hrun).
  apply bind_ok_inv in Hrun as ([] & w3 & Hloop & Hrun).
  apply bind_ok_inv in Hrun as ([] & w4 & Hrm1 & Hrm2).
  assert (w1 = w) as ->.
  { unfold load_model, bind, get_fs, ret, raise in Hload. cbn in Hload.
    destruct (w_fs w !! model_path) as [[m' |] |]; by inversion Hload. }
  injection Hargs as <- <-.
  apply predict_loop_ok_rows in Hloop.
  pose proof (os_remove_keeps_results (pred_temp_filename (w_args w)) w3) as H1.
  pose proof (os_remove_keeps_results (mask_temp_filename (w_args w)) w4) as H2.
  rewrite Hrm1 in H1. rewrite Hrm2 in H2. unfold keeps in H1, H2. cbn [snd] in H1, H2.
  rewrite H2, H1, Hloop. f_equal.
  unfold enumerate. rewrite length_zip, length_seq. lia.
Qed.

Lemma fold_setup_keeps_results patch_size depth fold :
  preserves (keeps w_results_df) (fold_setup data_manifest splits patch_size depth fold).
Proof. preserves_auto. Qed.

Lemma fold_training_keeps_results fuel patch_size fd l :
  preserves (keeps w_results_df) (fold_training data_manifest fuel patch_size fd l).
Proof. preserves_auto. Qed.

Lemma fold_finish_keeps_results l : preserves (keeps w_results_df) (fold_finish l).
Proof. preserves_auto. Qed.

Lemma train_fold_ok_rows fuel patch_size depth fold w w' :
  train_fold data_manifest splits fuel patch_size depth fold tt w = (Ok tt, w') ->
  length (w_results_df w') = length (w_results_df w) + evaluated_cases splits [fold].
Proof.
  unfold train_fold. intros Hrun.
  apply bind_ok_inv in Hrun as ([fd l0] & w1 & Hsetup & Hrun). cbn [fst snd] in Hrun.
  apply bind_ok_inv in Hrun as (l1 & w2 & Htrain & Hrun).
  apply bind_ok_inv in Hrun as ([] & w3 & Hfinish & Hrun).
  unfold fold_test_eval in Hrun.
  apply bind_ok_inv in Hrun as ([] & w4 & Htest & Hrun).
  unfold on_kFold_end, emit in Hrun. injection Hrun as <-.
  destruct (fold_setup_ok _ _ _ _ _ _ _ Hsetup) as (s & Hfd & _ & _ & _).
  pose proof (fold_setup_keeps_results patch_size depth fold w) as H1.
  pose proof (fold_training_keeps_results fuel patch_size fd l0 w1) as H2.
  pose proof (fold_finish_keeps_results l1 w2) as H3.
  rewrite Hsetup in H1. rewrite Htrain in H2. rewrite Hfinish in H3.
  unfold keeps in H1, H2, H3. cbn [snd] in H1, H2, H3.
  apply predict_and_evaluate_val_ok_rows in Htest.
  cbn [w_results_df]. rewrite Htest, H3, H2, H1.
  unfold evaluated_cases, test_items. cbn. rewrite Hfd. lia.
Qed.

Lemma for_each_train_fold_ok_rows fuel patch_size depth folds w w' :
  for_each (train_fold data_manifest splits fuel patch_size depth) folds tt w = (Ok tt, w') ->
  length (w_results_df w') = length (w_results_df w) + evaluated_cases splits folds.
Proof.
  revert w. induction folds as [| fold folds IH]; intros w Hrun.
  - injection Hrun as <-. cbn. lia.
  - cbn [for_each] in Hrun. apply bind_ok_inv in Hrun as ([] & w1 & Hfold & Hrest).
    apply train_fold_ok_rows in Hfold. apply IH in Hrest.
    rewrite Hrest, Hfold. unfold evaluated_cases. cbn. lia.
Qed.

(** X11.  A run of [train] that ends normally has added to the results
    table exactly one row per test case evaluated - for each requested
    fold as many as its test loader yields items, at most the length of
    its test frame - and training itself has added none. *)
Theorem train_appends_one_row_per_test_case (fuel : nat) (w w' : world) :
  train data_manifest splits fuel w = (Ok tt, w') ->
  length (w_results_df w')
  = length (w_results_df w) + evaluated_cases splits (arg_folds (w_args w)).
Proof.
  unfold train. intros Hrun.
  apply bind_ok_inv in Hrun as ([ps depth] & w0 & Hinit & Hrun).
  apply bind_ok_inv in Hrun as (a & w0' & Hargs & Hrun).
  unfold get_args in Hargs. injection Hargs as <- <-.
  apply bind_ok_inv in Hrun as ([] & w1 & Hfolds & Hrun).
  unfold on_training_end, emit in Hrun. injection Hrun as <-.
  pose proof (train_init_ok _ _ _ _ Hinit) as Hw0.
  apply for_each_train_fold_ok_rows in Hfolds.
  cbn [w_results_df]. rewrite Hfolds. subst w0. reflexivity.
Qed.

(** *** A case without an image path *)

(** X12.  On a frame without image columns - every row holds an id and a
    mask path only - [predict_and_evaluate_val] raises [IndexError] at the
    first case, on [image_list[0]]: no case is predicted, no row is added
    to the results and no file is written or removed, so the state is the
    one before the call. *)
Theorem frame_without_images_raises_index_error
    (model_path : string) (df : list patient) (ds : dataset batch) (w : world) (m : model) :
  w_fs w !! model_path = Some (SavedModel m) ->
  Forall (fun p => pat_images p = []) df ->
  ds_take (length df) ds <> [] ->
  predict_and_evaluate_val model_path df ds w = (Raise IndexError, w).
Proof.
  intros Hmodel Hframe Hcases.
  unfold predict_and_evaluate_val.
  erewrite bind_ok; [| unfold load_model, bind, get_fs, ret; cbv beta iota;
                       cbn [w_fs fst snd]; rewrite Hmodel; reflexivity].
  unfold bind at 1, get_args at 1. cbv beta iota.
  destruct df as [| p df]; [done |].
  destruct (ds_take (length (p :: df)) ds) as [| b items]; [done |].
  apply Forall_cons in Hframe as [Hp _].
  unfold enumerate. cbn [length seq zip zip_with for_each].
  unfold bind, predict_case. cbn [fst snd lookup list_lookup]. by rewrite Hp.
Qed.

(** *** The best slot at the end of a fold *)


(** *** The running losses between validation rounds *)









(** *** Where the validation rounds fall *)

Lemma round_positions_from_app (n : nat) (t1 t2 : list event) :
  round_positions_from n (t1 ++ t2)
  = round_positions_from n t1 ++ round_positions_from (n + length (train_steps t1)) t2.
Proof.
  unfold train_steps. revert n. induction t1 as [| e t1 IH]; intros n.
  - cbn. by rewrite Nat.add_0_r.
  - destruct e; cbn; rewrite IH; first [reflexivity | do 2 f_equal; lia].
Qed.

Lemma train_steps_app (t1 t2 : list event) :
  train_steps (t1 ++ t2) = train_steps t1 ++ train_steps t2.
Proof. apply omap_app. Qed.

Lemma val_events_round_positions n bs : round_positions_from n (val_events bs) = [].
Proof. induction bs as [| b bs IH]; [reflexivity | exact IH]. Qed.

Lemma validation_events_round_positions n a patch_size fd l :
  round_positions_from n (validation_events data_manifest a patch_size fd l) = [n].
Proof.
  unfold validation_events. rewrite round_positions_from_app, val_events_round_positions.
  rewrite val_events_train_steps. cbn [app length round_positions_from].
  rewrite Nat.add_0_r, round_positions_from_app. unfold save_events.
  destruct (loss_lt _ _); reflexivity.
Qed.

Lemma epoch_boundary_true s g :
  epoch_boundary s g = true -> (g + 1) mod s = 0 /\ 0 < g.
Proof.
  unfold epoch_boundary. intros Hb. apply andb_true_iff in Hb as [Hmod Hpos].
  apply Nat.eqb_eq in Hmod. apply Nat.ltb_lt in Hpos. done.
Qed.

Lemma train_iteration_rounds (w0 : world) patch_size fd total_steps g l w :
  rounds_invariant w0 g w ->
  match train_iteration data_manifest patch_size fd total_steps g l w with
  | (Ok (Some _), w') => rounds_invariant w0 (S g) w'
  | (Ok None, w') => rounds_invariant w0 g w'
  | (_, w') => exists g', rounds_invariant w0 g' w'
  end.
Proof.
  intros (Ha & new & Htr & Hlen & Hpos).
  destruct (train_iteration_cases patch_size fd total_steps g l w)
    as [-> | [[e ->] | [(image & mask & e & ->)
                       | (image & mask & s & _ & _ & _ & _ & Hs & Hs0 & ->)]]].
  - split; [exact Ha |]. by exists new.
  - exists g. split; [exact Ha |]. by exists new.
  - exists (S g). split; [exact Ha |].
    exists (new ++ [EvTrainStep g (gray image) (gray mask)]).
    cbn [w_trace add_events]. rewrite Htr, <- app_assoc. split; [reflexivity |].
    unfold train_steps, round_positions in *. rewrite omap_app, length_app.
    rewrite round_positions_from_app. cbn. rewrite app_nil_r. split; [lia | exact Hpos].
  - unfold iteration_result.
    set (l1 := locals_after_train_step (w_args w) (gray image) (gray mask) l).
    destruct (epoch_boundary s g) eqn:Hb.
    + apply epoch_boundary_true in Hb as [Hmod Hg].
      split; [exact Ha |].
      exists (new ++ EvTrainStep g (gray image) (gray mask)
                   :: validation_events data_manifest (w_args w) patch_size fd l1).
      unfold world_after_validation. cbn [w_trace add_events with_fs].
      split; [rewrite Htr, <- !app_assoc; reflexivity |].
      split.
      * rewrite train_steps_app, length_app.
        change (train_steps (EvTrainStep g (gray image) (gray mask) :: ?t))
          with (g :: train_steps t).
        rewrite validation_events_train_steps. cbn [length]. lia.
      * unfold round_positions in *. rewrite round_positions_from_app.
        apply Forall_app. split; [exact Hpos |].
        cbn [round_positions_from]. rewrite validation_events_round_positions.
        constructor; [| constructor].
        rewrite Hlen. cbn [Nat.add]. split; [lia |].
        exists s. rewrite <- Ha. split; [exact Hs |]. split; [exact Hs0 |].
        by rewrite <- Nat.add_1_r.
    + split; [exact Ha |].
      exists (new ++ [EvTrainStep g (gray image) (gray mask)]).
      cbn [w_trace add_events]. rewrite Htr, <- app_assoc. split; [reflexivity |].
      unfold train_steps, round_positions in *. rewrite omap_app, length_app.
      rewrite round_positions_from_app. cbn. rewrite app_nil_r. split; [lia | exact Hpos].
Qed.

Lemma train_loop_rounds (w0 : world) patch_size fd total_steps :
  forall fuel g l w,
    rounds_invariant w0 g w ->
    exists g', rounds_invariant w0 g'
                 (snd (train_loop data_manifest fuel patch_size fd total_steps g l w)).
Proof.
  induction fuel as [| fuel IH]; intros g l w HI.
  - cbn. by exists g.
  - cbn [train_loop]. unfold bind.
    pose proof (train_iteration_rounds w0 patch_size fd total_steps g l w HI) as Hit.
    destruct (train_iteration data_manifest patch_size fd total_steps g l w)
      as [[[l' |] | e |] w1]; cbn [snd].
    + by apply IH.
    + by exists g.
    + exact Hit.
    + exact Hit.
Qed.

(** X13.  In the training loop of a fold, whatever its outcome, a
    validation round never comes in the middle of an epoch: the number of
    training steps made before each round is a multiple of the steps per
    epoch, and at least two. *)
Theorem validation_only_at_epoch_ends
    (fuel : nat) (patch_size : list nat) (fd : fold_data) (l : fold_locals) (w : world) :
  exists new,
    w_trace (snd (fold_training data_manifest fuel patch_size fd l w)) = w_trace w ++ new /\
    Forall (at_epoch_end (w_args w)) (round_positions new).
Proof.
  assert (HI0 : rounds_invariant w 0 w).
  { split; [reflexivity |]. exists []. rewrite app_nil_r. by repeat split. }
  unfold fold_training, bind, get_args, ret, raise. cbn.
  destruct (arg_steps_per_epoch (w_args w)) as [s |] eqn:Hs.
  - destruct (train_loop_rounds w patch_size fd (arg_epochs (w_args w) * s) fuel 0 l w HI0)
      as (g' & _ & new & Htr & _ & Hpos).
    exists new.
    destruct (train_loop data_manifest fuel patch_size fd (arg_epochs (w_args w) * s) 0 l w)
      as [[l' | e |] w']; cbn [snd] in *; done.
  - cbn. exists []. rewrite app_nil_r. by repeat split.
Qed.

End Proofs.

(** ** Coverage of the volume by the patches *)

Lemma div_ceil_covers (a s : nat) : 1 <= s -> a <= div_ceil a s * s.
Proof.
  intros Hs. unfold div_ceil.
  pose proof (Nat.div_mod_eq (a + s - 1) s) as Hdm.
  pose proof (Nat.mod_upper_bound (a + s - 1) s ltac:(lia)) as Hr. nia.
Qed.

Lemma div_ceil_before (a s i : nat) : 1 <= s -> i < div_ceil a s -> i * s < a.
Proof.
  intros Hs Hi. unfold div_ceil in Hi.
  pose proof (Nat.div_mod_eq (a + s - 1) s) as Hdm.
  pose proof (Nat.mod_upper_bound (a + s - 1) s ltac:(lia)) as Hr. nia.
Qed.

Lemma axis_origins_lookup (v p s i : nat) :
  i <= div_ceil (v - p) s ->
  axis_origins v p s !! i = Some (Nat.min (i * s) (v - p)).
Proof.
  intros Hi. unfold axis_origins. rewrite list_lookup_fmap.
  rewrite lookup_seq_lt by lia. reflexivity.
Qed.

Lemma axis_origins_inside (v p s o : nat) : p <= v -> In o (axis_origins v p s) -> o + p <= v.
Proof.
  intros Hp Hin. unfold axis_origins in Hin.
  apply in_map_iff in Hin as (i & <- & _). lia.
Qed.

Lemma axis_origins_cover (v p s x : nat) :
  1 <= s <= p -> p <= v -> x < v ->
  exists o, In o (axis_origins v p s) /\ o <= x < o + p.
Proof.
  intros Hs Hp Hx.
  pose proof (div_ceil_covers (v - p) s ltac:(lia)) as Hn.
  pose proof (Nat.div_mod_eq x s) as Hdm.
  pose proof (Nat.mod_upper_bound x s ltac:(lia)) as Hr.
  destruct (decide (x / s * s <= v - p)) as [Hle | Hgt].
  - exists (x / s * s). split; [| nia].
    unfold axis_origins. apply in_map_iff. exists (x / s).
    split; [lia |]. apply in_seq. nia.
  - exists (v - p). split; [| nia].
    unfold axis_origins. apply in_map_iff. exists (div_ceil (v - p) s).
    split; [lia |]. apply in_seq. lia.
Qed.

Lemma in_cartesian_cons (x : nat) (xs : list nat) (rest : list (list nat)) (o : list nat) :
  In x xs -> In o (cartesian rest) -> In (x :: o) (cartesian (xs :: rest)).
Proof.
  intros Hx Ho. cbn [cartesian]. apply in_flat_map. exists x.
  split; [exact Hx |]. by apply in_map.
Qed.

Lemma in_cartesian_inv (xs : list nat) (rest : list (list nat)) (o : list nat) :
  In o (cartesian (xs :: rest)) -> exists x o', o = x :: o' /\ In x xs /\ In o' (cartesian rest).
Proof.
  cbn [cartesian]. intros Hin. apply in_flat_map in Hin as (x & Hx & Hin).
  apply in_map_iff in Hin as (o' & <- & Ho'). eauto.
Qed.

Lemma patch_origins_cover (volume patch step : list nat) :
  valid_shapes volume patch step ->
  forall voxel, in_volume volume voxel ->
    exists origin, In origin (patch_origins volume patch step) /\ in_patch origin patch voxel.
Proof.
  unfold valid_shapes, patch_origins, in_volume, in_patch.
  induction 1 as [| v p s vs ps ss (Hs & Hp) _ IH]; intros voxel Hvox.
  - inversion Hvox; subst. exists []. split; [by left | constructor].
  - inversion Hvox as [| x v' xs vs' Hx Hxs]; subst.
    destruct (axis_origins_cover v p s x Hs Hp Hx) as (o & Ho & Hox).
    destruct (IH xs Hxs) as (os & Hos & Hosx).
    exists (o :: os). split.
    + cbn [axes_origins]. by apply in_cartesian_cons.
    + by constructor.
Qed.

Lemma patch_origins_inside (volume patch step : list nat) :
  valid_shapes volume patch step ->
  forall origin, In origin (patch_origins volume patch step) ->
    patch_inside volume origin patch.
Proof.
  unfold valid_shapes, patch_origins, patch_inside.
  induction 1 as [| v p s vs ps ss (Hs & Hp) _ IH]; intros origin Hin.
  - cbn in Hin. destruct Hin as [<- | []]. constructor.
  - cbn [axes_origins] in Hin.
    apply in_cartesian_inv in Hin as (o & os & -> & Ho & Hos).
    constructor; [by eapply axis_origins_inside | by apply IH].
Qed.

(** C2.  For shapes with the patch no larger than the volume along every
    axis, the origins along an axis are [0, step, 2 step, ...] followed by
    a final origin that is exactly [volume - patch]; every voxel of the
    volume lies in the patch region of some generated origin, whether or
    not the step divides the volume, and every patch region lies inside
    the volume. *)
Theorem patch_origins_cover_volume (volume patch step : list nat) :
  valid_shapes volume patch step ->
  Forall3 (fun v p s =>
             axis_origins v p s !! 0 = Some 0 /\
             (forall i, i < div_ceil (v - p) s -> axis_origins v p s !! i = Some (i * s)) /\
             last (axis_origins v p s) = Some (v - p))
    volume patch step /\
  (forall voxel, in_volume volume voxel ->
     exists origin, In origin (patch_origins volume patch step) /\
                    in_patch origin patch voxel) /\
  (forall origin, In origin (patch_origins volume patch step) ->
     patch_inside volume origin patch).
Proof.
  intros Hvalid. split; [| split].
  - unfold valid_shapes in Hvalid.
    induction Hvalid as [| v p s vs ps ss (Hs & Hp) _ IH]; [constructor |].
    constructor; [| exact IH].
    split; [| split].
    + rewrite axis_origins_lookup by lia. f_equal; lia.
    + intros i Hi. rewrite axis_origins_lookup by lia. f_equal.
      pose proof (div_ceil_before (v - p) s i ltac:(lia) Hi). lia.
    + unfold axis_origins. rewrite seq_S, map_app. cbn [map Nat.add].
      rewrite last_snoc. f_equal.
      pose proof (div_ceil_covers (v - p) s ltac:(lia)). lia.
  - by apply patch_origins_cover.
  - by apply patch_origins_inside.
Qed.

(** ** Runs of the concrete instance *)

Lemma predict_and_evaluate_val_empty_df_witness :
  w_fs demo_world_with_model !! "model" = Some (@SavedModel demo 0) /\
  exists w',
    @predict_and_evaluate_val demo "model" [] (ds_of_list []) demo_world_with_model
    = (Raise FileNotFoundError, w') /\
    w_results_df w' = w_results_df demo_world_with_model /\
    w_trace w' = w_trace demo_world_with_model.
Proof.
  split; [reflexivity |].
  apply (@predict_and_evaluate_val_empty_df demo "model" (ds_of_list []) demo_world_with_model 0);
    [reflexivity | left; reflexivity].
Defined.

Lemma non_adam_optimizer_raises_name_error_witness :
  arg_optimizer demo_args_sgd <> "adam" /\
  @train demo demo_data demo_splits 100 (demo_world demo_args_sgd)
  = (Raise NameError, demo_trained_world demo_args_sgd) /\
  exists new,
    w_trace (demo_trained_world demo_args_sgd) = w_trace (demo_world demo_args_sgd) ++ new /\
    Forall training_event new /\ hooks new = [].
Proof.
  split; [discriminate |].
  apply (@non_adam_optimizer_raises_name_error demo demo_data demo_splits 100
           (demo_world demo_args_sgd) 0 [1] demo_patch_size 4 (demo_world demo_args_sgd)
           (demo_fold 4 "p0") (demo_locals demo_args_sgd 0) (demo_fold_start demo_args_sgd 0)
           (demo_trained_locals demo_args_sgd) (demo_trained_world demo_args_sgd));
    [discriminate | reflexivity | reflexivity | reflexivity | vm_compute; reflexivity].
Defined.

Lemma demo_yields_rgb (n : nat) (id : string) (i : nat) : @yields_rgb demo (demo_fold n id) i.
Proof.
  exists demo_rgb, demo_rgb. repeat split.
Qed.

Lemma fold_training_step_budget_witness :
  arg_steps_per_epoch demo_args_two_epochs = Some 2 /\
  arg_epochs demo_args_two_epochs * 2 < 10 /\
  exists l' w' new,
    @fold_training demo demo_data 10 demo_patch_size (demo_fold 4 "p0")
      (demo_locals demo_args_two_epochs 0) (demo_world demo_args_two_epochs) = (Ok l', w') /\
    w_trace w' = w_trace (demo_world demo_args_two_epochs) ++ new /\
    train_steps new = [0; 1; 2; 3] /\
    length (validation_rounds new) = 2 /\
    length (val_steps new) = 4.
Proof.
  split; [reflexivity |]. split; [cbn; lia |].
  destruct (@fold_training_step_budget demo demo_data 10 demo_patch_size (demo_fold 4 "p0")
              (demo_locals demo_args_two_epochs 0) (demo_world demo_args_two_epochs) 2)
    as (l' & w' & new & Hrun & Htr & Hsteps & _ & Hrounds & Hval & _).
  - reflexivity.
  - cbn; lia.
  - intros i _. apply demo_yields_rgb.
  - right. apply demo_yields_rgb.
  - exists l', w', new. repeat split; try assumption. by rewrite Hval.
Defined.

(** With one step per epoch and three epochs the loop makes its three
    training steps but only two validation rounds. *)
Lemma step_budget_counterexample :
  train_steps (new_events (@fold_training demo demo_data 10 demo_patch_size (demo_fold 4 "p0")
                             (demo_locals demo_args_one_step 0))
                 (demo_world demo_args_one_step))
  = seq 0 (arg_epochs demo_args_one_step * 1) /\
  length (validation_rounds
            (new_events (@fold_training demo demo_data 10 demo_patch_size (demo_fold 4 "p0")
                           (demo_locals demo_args_one_step 0))
               (demo_world demo_args_one_step)))
  <> arg_epochs demo_args_one_step.
Proof. vm_compute. split; [reflexivity | discriminate]. Qed.



(** The validation losses 0.9, 0.5, 0.7, 0.3, 0.6 of five epochs: the best
    path ends up holding the model of the fourth round. *)
Example best_checkpoint_after_five_epochs :
  let run :=
    bind (@fold_setup_and_training demo demo_data demo_splits 100 demo_patch_size 4 0)
      (fun l => bind (@fold_finish demo l)
                  (fun _ => @load_model demo (best_model_path (l_checkpoint l)))) in
  fst (run (demo_world demo_args_five_epochs)) = Ok 8 /\
  map fst (validation_rounds (w_trace (snd (run (demo_world demo_args_five_epochs)))))
  = [2; 4; 6; 8; 10].
Proof. vm_compute. split; reflexivity. Qed.

Lemma hooks_fire_once_per_fold_witness :
  exists trs,
    w_trace (snd (@train demo demo_data demo_splits 100 (demo_world demo_args_derived)))
    = w_trace (demo_world demo_args_derived) ++ concat trs ++ [EvOnTrainingEnd] /\
    Forall2 fold_trace (arg_folds (w_args (demo_world demo_args_derived))) trs /\
    hooks (concat trs ++ [EvOnTrainingEnd])
    = concat (map (fun _ => [HookEpochEnd; HookKFoldEnd])
                (arg_folds (w_args (demo_world demo_args_derived))))
      ++ [HookTrainingEnd] /\
    length (w_k_metrics (snd (@train demo demo_data demo_splits 100
                                (demo_world demo_args_derived))))
    = length (arg_folds (w_args (demo_world demo_args_derived))).
Proof.
  apply (@hooks_fire_once_per_fold demo demo_data demo_splits 100
           (demo_world demo_args_derived)
           (snd (@train demo demo_data demo_splits 100 (demo_world demo_args_derived)))).
  vm_compute; reflexivity.
Defined.

(** Two epochs, so two epoch boundaries with a validation round each, but
    [on_epoch_end] fires once and the log has one row. *)
Lemma hooks_per_epoch_counterexample :
  length (validation_rounds
            (w_trace (snd (@train demo demo_data demo_splits 100
                             (demo_world demo_args_two_epochs)))))
  = arg_epochs demo_args_two_epochs /\
  hooks (w_trace (snd (@train demo demo_data demo_splits 100
                         (demo_world demo_args_two_epochs))))
  = [HookEpochEnd; HookKFoldEnd; HookTrainingEnd] /\
  length (w_k_metrics (snd (@train demo demo_data demo_splits 100
                              (demo_world demo_args_two_epochs))))
  <> arg_epochs demo_args_two_epochs.
Proof. vm_compute. repeat split; discriminate. Qed.


Example axis_origins_example : axis_origins 10 4 3 = [0; 3; 6] /\ axis_origins 7 3 2 = [0; 2; 4].
Proof. split; reflexivity. Qed.

Lemma patch_origins_cover_volume_witness :
  valid_shapes [10; 7; 5] [4; 3; 5] [3; 2; 5] /\
  (forall voxel, in_volume [10; 7; 5] voxel ->
     exists origin, In origin (patch_origins [10; 7; 5] [4; 3; 5] [3; 2; 5]) /\
                    in_patch origin [4; 3; 5] voxel).
Proof.
  split; [repeat constructor; lia |].
  apply (patch_origins_cover_volume [10; 7; 5] [4; 3; 5] [3; 2; 5]).
  repeat constructor; lia.
Defined.

(** ** Further runs of the concrete instance *)

Lemma fold_training_ends_witness :
  fst (@fold_training demo demo_data 5 demo_patch_size (demo_fold 4 "p0")
         (demo_locals demo_args_two_epochs 0) (demo_world demo_args_two_epochs))
  <> OutOfFuel.
Proof.
  apply (@fold_training_ends demo demo_data 5 demo_patch_size (demo_fold 4 "p0")
           (demo_locals demo_args_two_epochs 0) (demo_world demo_args_two_epochs)).
  intros s Hs. injection Hs as <-. cbn. lia.
Defined.

Lemma demo_fold_with_yields_rgb (batches : list (@batch demo)) (n i : nat) :
  i < n -> take n batches = replicate n demo_batch -> @yields_rgb demo (demo_fold_with batches) i.
Proof.
  intros Hi Htake. exists demo_rgb, demo_rgb. split; [| by split].
  cbn. unfold ds_of_list.
  rewrite <- (lookup_take_lt batches n i Hi), Htake. by apply lookup_replicate_2.
Qed.

Lemma training_ends_when_iterator_runs_dry_witness :
  exists l' w' new,
    @fold_training demo demo_data 10 demo_patch_size demo_fold_short
      (demo_locals demo_args_two_epochs 0) (demo_world demo_args_two_epochs) = (Ok l', w') /\
    w_trace w' = w_trace (demo_world demo_args_two_epochs) ++ new /\
    train_steps new = seq 0 3 /\
    length (validation_rounds new) = rounds_after 2 3.
Proof.
  apply (@training_ends_when_iterator_runs_dry demo demo_data 10 demo_patch_size
           demo_fold_short (demo_locals demo_args_two_epochs 0)
           (demo_world demo_args_two_epochs) 2 3).
  - reflexivity.
  - cbn. lia.
  - lia.
  - intros i Hi. by apply (demo_fold_with_yields_rgb _ 3).
  - reflexivity.
Defined.

Lemma malformed_batch_aborts_training_witness :
  exists w' new,
    @fold_training demo demo_data 10 demo_patch_size demo_fold_malformed
      (demo_locals demo_args_two_epochs 0) (demo_world demo_args_two_epochs)
    = (Raise InvalidArgumentError, w') /\
    w_trace w' = w_trace (demo_world demo_args_two_epochs) ++ new /\
    train_steps new = seq 0 1 /\
    length (validation_rounds new) = rounds_after 2 1.
Proof.
  apply (@malformed_batch_aborts_training demo demo_data 10 demo_patch_size
           demo_fold_malformed (demo_locals demo_args_two_epochs 0)
           (demo_world demo_args_two_epochs) 2 1 demo_one_channel demo_rgb).
  - reflexivity.
  - cbn. lia.
  - lia.
  - intros i Hi. by apply (demo_fold_with_yields_rgb _ 1).
  - reflexivity.
  - intros [Hrgb _]. discriminate Hrgb.
Defined.

Lemma trained_model_is_gradient_steps_witness :
  exists l' w',
    @fold_training demo demo_data 10 demo_patch_size (demo_fold 4 "p0")
      (demo_locals demo_args_two_epochs 0) (demo_world demo_args_two_epochs) = (Ok l', w') /\
    (l_model l', l_optimizer l')
    = @gradient_steps demo (w_args (demo_world demo_args_two_epochs))
        (ds_take 4 (fd_train_loader (demo_fold 4 "p0")))
        (l_model (demo_locals demo_args_two_epochs 0),
         l_optimizer (demo_locals demo_args_two_epochs 0)).
Proof.
  apply (@trained_model_is_gradient_steps demo demo_data 10 demo_patch_size (demo_fold 4 "p0")
           (demo_locals demo_args_two_epochs 0) (demo_world demo_args_two_epochs) 2 4).
  - reflexivity.
  - cbn. lia.
  - lia.
  - intros i _. apply demo_yields_rgb.
  - right. split; [reflexivity | apply demo_yields_rgb].
Defined.

Lemma fold_out_of_range_raises_witness :
  @train demo demo_data demo_splits 100 (demo_world demo_args_bad_fold)
  = (Raise IndexError,
     add_events [EvFoldStart 7]
       (snd (for_each (@train_fold demo demo_data demo_splits 100 demo_patch_size 4) [0] tt
               (demo_world demo_args_bad_fold)))).
Proof.
  apply (@fold_out_of_range_raises demo demo_data demo_splits 100
           (demo_world demo_args_bad_fold) [0] 7 [1] demo_patch_size 4
           (demo_world demo_args_bad_fold)).
  - reflexivity.
  - cbn. lia.
  - reflexivity.
  - vm_compute. reflexivity.
Defined.

Lemma fold_without_validation_fails_to_load_witness :
  exists w' new,
    @train_fold demo demo_data demo_splits 10 demo_patch_size 4 0 tt
      (demo_world demo_args_single_step) = (Raise OSError, w') /\
    w_trace w' = w_trace (demo_world demo_args_single_step) ++ new /\
    train_steps new = seq 0 (arg_epochs (w_args (demo_world demo_args_single_step)) * 1) /\
    hooks new = [HookEpochEnd].
Proof.
  apply (@fold_without_validation_fails_to_load demo demo_data demo_splits 10 demo_patch_size
           4 0 (demo_world demo_args_single_step) (demo_fold 4 "p0") 1).
  - reflexivity.
  - reflexivity.
  - reflexivity.
  - cbn. lia.
  - intros i _. apply demo_yields_rgb.
  - right. apply demo_yields_rgb.
  - reflexivity.
  - reflexivity.
Defined.

Lemma predict_and_evaluate_val_appends_rows_witness :
  exists w',
    @predict_and_evaluate_val demo "model" [demo_patient "p0"] (ds_of_list [demo_batch])
      demo_world_with_model = (Ok tt, w') /\
    w_results_df w'
    = w_results_df demo_world_with_model
      ++ zip_with (@case_row demo 0) [demo_patient "p0"]
           (ds_take (length [demo_patient "p0"]) (ds_of_list [demo_batch])) /\
    w_trace w'
    = w_trace demo_world_with_model
      ++ map (fun p => EvPredict (pat_id p))
           (take (length (ds_take (length [demo_patient "p0"]) (ds_of_list [demo_batch])))
              [demo_patient "p0"]) /\
    w_fs w' !! pred_temp_filename (w_args demo_world_with_model) = None /\
    w_fs w' !! mask_temp_filename (w_args demo_world_with_model) = None.
Proof.
  apply (@predict_and_evaluate_val_appends_rows demo "model" [demo_patient "p0"]
           (ds_of_list [demo_batch]) demo_world_with_model 0).
  - reflexivity.
  - repeat constructor. discriminate.
  - discriminate.
Defined.

Lemma train_appends_one_row_per_test_case_witness :
  length (w_results_df (snd (@train demo demo_data demo_splits 100
                               (demo_world demo_args_derived))))
  = length (w_results_df (demo_world demo_args_derived))
    + evaluated_cases demo_splits (arg_folds (w_args (demo_world demo_args_derived))).
Proof.
  apply (@train_appends_one_row_per_test_case demo demo_data demo_splits 100
           (demo_world demo_args_derived)).
  vm_compute. reflexivity.
Defined.

Lemma frame_without_images_raises_index_error_witness :
  @predict_and_evaluate_val demo "model" [demo_patient_no_image] (ds_of_list [demo_batch])
    demo_world_with_model
  = (Raise IndexError, demo_world_with_model).
Proof.
  apply (@frame_without_images_raises_index_error demo "model" [demo_patient_no_image]
           (ds_of_list [demo_batch]) demo_world_with_model 0).
  - reflexivity.
  - by repeat constructor.
  - discriminate.
Defined.


(** ** The accumulators in a concrete fold *)


